(** * GreatX / GraphWar adversarial attacks: a shallow embedding

    These parts of the repository are embedded here and checked against the
    natural-language specification:

    - [InjectionAttacker] (graphwar/attack/injection/injection_attacker.py):
      the node-injection base class, its argument resolution in [attack],
      its result accessors and [inject_node];
    - [PRBCDAttack] (greatx/attack/targeted/rbcd_attack.py): the targeted
      projected randomized block coordinate descent attack, its [update]
      step, the epoch loop and the final validation of the flipped edges;
    - [GCNConv] (greatx/nn/layers/gcn_conv.py) and the constructor of [GAT]
      (greatx/nn/models/supervised/gat.py): the dispatch of [forward] on
      the kind of adjacency, and the list of layers that is built.

    Python objects are records, attributes that may hold [None] (or may not
    exist yet) are [option]s, exceptions are values of [Py.exn], and methods
    are computations in a small state-and-exception monad so that what a
    method has already written to [self] survives a later [raise].  Floats
    are modelled by rationals ([Q]). *)

From Stdlib Require Import ZArith QArith Qminmax Qround Qabs Qpower Lqa Lia List String Bool Sorted.
From stdpp Require Import base gmap strings list.

(** ** Python: exceptions and the method monad *)

Module Py.

Inductive exn : Type :=
| RuntimeError (msg : string)
| ValueError (msg : string)
| TypeError (msg : string)
| AssertionError (msg : string)
| AttributeError (attr : string)
| IndexError (msg : string)
| KeyError (key : string)
| ZeroDivisionError.

(** A method body over an object state [St]: it returns or raises, and in
    both cases leaves a state behind.  The text of an exception is the
    constant part of the message in the source; values that the source
    interpolates into it are left out. *)
Definition M (St A : Type) : Type := St -> (exn + A) * St.

Definition ret {St A : Type} (a : A) : M St A := fun s => (inr a, s).

Definition raise {St A : Type} (e : exn) : M St A := fun s => (inl e, s).

Definition bind {St A B : Type} (c : M St A) (k : A -> M St B) : M St B :=
  fun s => match c s with
           | (inl e, s') => (inl e, s')
           | (inr a, s') => k a s'
           end.

Definition get {St : Type} : M St St := fun s => (inr s, s).

Definition gets {St A : Type} (f : St -> A) : M St A := fun s => (inr (f s), s).

Definition modify {St : Type} (f : St -> St) : M St unit := fun s => (inr tt, f s).

(** A pure computation that may raise, run inside a method. *)
Definition lift {St A : Type} (r : exn + A) : M St A := fun s => (r, s).

(** [assert cond, msg] *)
Definition py_assert {St : Type} (cond : bool) (msg : string) : M St unit :=
  if cond then ret tt else raise (AssertionError msg).

(** Reading an attribute that holds [None] where an object is needed, or
    that was never assigned. *)
Definition require {St A : Type} (o : option A) (e : exn) : M St A :=
  match o with
  | Some a => ret a
  | None => raise e
  end.

(** Pure counterparts on [exn + A]. *)
Definition rbind {A B : Type} (r : exn + A) (k : A -> exn + B) : exn + B :=
  match r with
  | inl e => inl e
  | inr a => k a
  end.

(** Python numbers as far as the attack arguments use them. *)
Inductive number : Type :=
| PyInt (z : Z)
| PyFloat (q : Q).

(** [o is not None] *)
Definition is_not_None {A : Type} (o : option A) : bool :=
  match o with
  | Some _ => true
  | None => false
  end.

(** [l[:n]] on a list. *)
Definition slice_to {A : Type} (n : Z) (l : list A) : list A :=
  if (n <? 0)%Z
  then firstn (Z.to_nat (Z.max 0 (Z.of_nat (length l) + n))) l
  else firstn (Z.to_nat n) l.

(** [a < b] on floats. *)
Definition Qltb (a b : Q) : bool := negb (Qle_bool b a).

(** [int(q)]: truncation towards zero. *)
Definition int_of_float (q : Q) : Z := Z.quot (Qnum q) (Zpos (Qden q)).

(** Whether a call returned. *)
Definition returned {A : Type} (r : exn + A) : bool :=
  match r with
  | inr _ => true
  | inl _ => false
  end.

(** A step that only reads the state. *)
Definition read_only {St A : Type} (c : M St A) : Prop := forall s, snd (c s) = s.

(** A step that leaves the part [f] of the state as it was. *)
Definition preserves {St A X : Type} (f : St -> X) (c : M St A) : Prop :=
  forall s, f (snd (c s)) = f s.

End Py.

Declare Scope py_scope.
Delimit Scope py_scope with py.
Notation "x <- c1 ;; c2" := (Py.bind c1 (fun x => c2))
  (at level 100, c1 at next level, c2 at level 200, right associativity) : py_scope.
Notation "c1 ;; c2" := (Py.bind c1 (fun _ => c2))
  (at level 100, c2 at level 200, right associativity) : py_scope.

(** ** torch: dense tensors as a shape and a row-major storage *)

Module Torch.
Import Py.

Record Tensor : Type := mkTensor { shape : list nat; storage : list Q }.

Definition numel (dims : list nat) : nat := fold_right Nat.mul 1%nat dims.

Definition Qsum (l : list Q) : Q := fold_right Qplus 0%Q l.

(** [t.new_zeros(dims)] *)
Definition new_zeros (dims : list nat) : Tensor :=
  mkTensor dims (repeat 0%Q (numel dims)).

Definition Qlist_min (l : list Q) : option Q :=
  match l with
  | [] => None
  | q :: l' => Some (fold_left Qmin l' q)
  end.

Definition Qlist_max (l : list Q) : option Q :=
  match l with
  | [] => None
  | q :: l' => Some (fold_left Qmax l' q)
  end.

(** [t.min()] and [t.max()]: a reduction over every entry, an error on a
    tensor without entries. *)
Definition tensor_min (t : Tensor) : exn + Q :=
  match Qlist_min (storage t) with
  | Some q => inr q
  | None => inl (RuntimeError "min(): Expected reduction dim to be specified for input.numel() == 0")
  end.

Definition tensor_max (t : Tensor) : exn + Q :=
  match Qlist_max (storage t) with
  | Some q => inr q
  | None => inl (RuntimeError "max(): Expected reduction dim to be specified for input.numel() == 0")
  end.

(** [t.bool().sum()]: the number of non-zero entries. *)
Definition count_nonzero (t : Tensor) : Z :=
  Z.of_nat (length (filter (fun q => negb (Qeq_bool q 0)) (storage t))).

Definition nat_list_eqb (a b : list nat) : bool :=
  bool_decide (a = b).

(** [torch.stack(ts, dim=0)]: the tensors must all have one shape. *)
Definition stack (ts : list Tensor) : exn + Tensor :=
  match ts with
  | [] => inl (RuntimeError "stack expects a non-empty TensorList")
  | t :: rest =>
      if forallb (fun u => nat_list_eqb (shape u) (shape t)) rest
      then inr (mkTensor (length ts :: shape t) (concat (map storage ts)))
      else inl (RuntimeError "stack expects each tensor to be equal size")
  end.

Fixpoint cat_all (ts : list (option Tensor)) : exn + list Tensor :=
  match ts with
  | [] => inr []
  | None :: _ => inl (TypeError "expected Tensor as element of the list, but got NoneType")
  | Some t :: rest => rbind (cat_all rest) (fun l => inr (t :: l))
  end.

(** [torch.cat(ts, dim=0)]: every element must be a tensor ([None] is a
    [TypeError]); the shapes must agree after the first dimension. *)
Definition cat (ts : list (option Tensor)) : exn + Tensor :=
  rbind (cat_all ts) (fun l =>
    match l with
    | [] => inl (RuntimeError "torch.cat(): expected a non-empty list of Tensors")
    | t :: rest =>
        match shape t with
        | [] => inl (RuntimeError "zero-dimensional tensor cannot be concatenated")
        | _ :: tail =>
            if forallb (fun u => nat_list_eqb (List.tail (shape u)) tail
                                 && negb (nat_list_eqb (shape u) [])) rest
            then inr (mkTensor (fold_right Nat.add 0%nat (map (fun u => hd 0%nat (shape u)) l) :: tail)
                               (concat (map storage l)))
            else inl (RuntimeError "Sizes of tensors must match except in dimension 0")
        end
    end).

(** Overwrite the [len] entries from position [start] on with [v]. *)
Definition fill_range (start len : nat) (v : Q) (l : list Q) : list Q :=
  firstn start l ++ repeat v (length (firstn len (skipn start l))) ++ skipn (start + len) l.

(** [t[idx] = v] with an index tensor [idx]: advanced indexing along the
    FIRST dimension; each index selects a whole slice of [t], and an index
    that is not below the size of that dimension is an [IndexError]. *)
Definition index_put (t : Tensor) (idx : list nat) (v : Q) : exn + Tensor :=
  match shape t with
  | [] => inl (IndexError "too many indices for tensor of dimension 0")
  | d0 :: tail =>
      if forallb (fun i => (i <? d0)%nat) idx
      then inr (mkTensor (shape t)
                  (fold_left (fun st i => fill_range (i * numel tail) (numel tail) v st)
                             idx (storage t)))
      else inl (IndexError "index out of range in self")
  end.

End Torch.

(** ** InjectionAttacker (graphwar/attack/injection/injection_attacker.py) *)

Module Injection.
Import Py Torch.
Local Open Scope py_scope.
Local Open Scope Z_scope.

(** The PyG [Data] object, as far as [data()] reads and writes it. *)
Record Data : Type := mkData { x : Tensor; edge_index : list (Z * Z) }.

(** A dict with string keys, in insertion order; a value may be [None]. *)
Abbreviation pydict := (list (string * option Q)).

Fixpoint dict_get (k : string) (d : pydict) : option (option Q) :=
  match d with
  | [] => None
  | (k', v) :: d' => if String.eqb k' k then Some v else dict_get k d'
  end.

Definition dict_remove (k : string) (d : pydict) : pydict :=
  filter (fun kv => negb (String.eqb (fst kv) k)) d.

(** [d.pop(k, None)]: the value under [k] ([None] without one), and the dict
    as the call leaves it. *)
Definition dict_pop (k : string) (d : pydict) : option Q * pydict :=
  (match dict_get k d with Some v => v | None => None end, dict_remove k d).

(** The [feat_limits] argument when it is not [None]: a tuple (a value), a
    dict (a reference to an object that the caller keeps), or anything else. *)
Inductive limits_arg : Type :=
| LimitsTuple (items : list (option Q))
| LimitsDict (ref : nat)
| LimitsOther.

(** The [targets] argument when it is not [None]. *)
Inductive targets_arg : Type :=
| TargetsMask (mask : list bool)
| TargetsIndices (ids : list Z).

(** The attributes of [self].  The first seven are set by the base class
    [Attacker]; [_is_setup] may be missing altogether (read with [getattr]
    and a default), [targets] does not exist before the first [attack]. *)
Record InjectionAttacker : Type := mkAttacker {
  _is_setup : option bool;
  _is_reset : bool;
  num_nodes : nat;
  num_feats : nat;
  feat : option Tensor;
  _degree : list Q;
  ori_data : Data;
  targets : option (list Z);
  num_budgets : option Z;
  feat_limits : option (Q * Q);
  feat_budgets : option Z;
  num_edges_global : option Z;
  num_edges_local : option Z;
  _injected_nodes : list Z;
  _injected_edges : list ((Z * Z) * option Z);
  _injected_feats : list Tensor;
  _mu : option Q;
  _sigma : option Q;
  data_cache : option (bool * Data)
}.

Definition set__is_reset (v : bool) (a : InjectionAttacker) : InjectionAttacker :=
  mkAttacker (_is_setup a) v (num_nodes a) (num_feats a) (feat a) (_degree a)
    (ori_data a) (targets a) (num_budgets a) (feat_limits a) (feat_budgets a)
    (num_edges_global a) (num_edges_local a) (_injected_nodes a) (_injected_edges a)
    (_injected_feats a) (_mu a) (_sigma a) (data_cache a).

Definition set_targets (v : option (list Z)) (a : InjectionAttacker) : InjectionAttacker :=
  mkAttacker (_is_setup a) (_is_reset a) (num_nodes a) (num_feats a) (feat a)
    (_degree a) (ori_data a) v (num_budgets a) (feat_limits a) (feat_budgets a)
    (num_edges_global a) (num_edges_local a) (_injected_nodes a) (_injected_edges a)
    (_injected_feats a) (_mu a) (_sigma a) (data_cache a).

Definition set_num_budgets (v : option Z) (a : InjectionAttacker) : InjectionAttacker :=
  mkAttacker (_is_setup a) (_is_reset a) (num_nodes a) (num_feats a) (feat a)
    (_degree a) (ori_data a) (targets a) v (feat_limits a) (feat_budgets a)
    (num_edges_global a) (num_edges_local a) (_injected_nodes a) (_injected_edges a)
    (_injected_feats a) (_mu a) (_sigma a) (data_cache a).

Definition set_feat_limits (v : option (Q * Q)) (a : InjectionAttacker) : InjectionAttacker :=
  mkAttacker (_is_setup a) (_is_reset a) (num_nodes a) (num_feats a) (feat a)
    (_degree a) (ori_data a) (targets a) (num_budgets a) v (feat_budgets a)
    (num_edges_global a) (num_edges_local a) (_injected_nodes a) (_injected_edges a)
    (_injected_feats a) (_mu a) (_sigma a) (data_cache a).

Definition set_feat_budgets (v : option Z) (a : InjectionAttacker) : InjectionAttacker :=
  mkAttacker (_is_setup a) (_is_reset a) (num_nodes a) (num_feats a) (feat a)
    (_degree a) (ori_data a) (targets a) (num_budgets a) (feat_limits a) v
    (num_edges_global a) (num_edges_local a) (_injected_nodes a) (_injected_edges a)
    (_injected_feats a) (_mu a) (_sigma a) (data_cache a).

Definition set_num_edges_global (v : option Z) (a : InjectionAttacker) : InjectionAttacker :=
  mkAttacker (_is_setup a) (_is_reset a) (num_nodes a) (num_feats a) (feat a)
    (_degree a) (ori_data a) (targets a) (num_budgets a) (feat_limits a)
    (feat_budgets a) v (num_edges_local a) (_injected_nodes a) (_injected_edges a)
    (_injected_feats a) (_mu a) (_sigma a) (data_cache a).

Definition set_num_edges_local (v : option Z) (a : InjectionAttacker) : InjectionAttacker :=
  mkAttacker (_is_setup a) (_is_reset a) (num_nodes a) (num_feats a) (feat a)
    (_degree a) (ori_data a) (targets a) (num_budgets a) (feat_limits a)
    (feat_budgets a) (num_edges_global a) v (_injected_nodes a) (_injected_edges a)
    (_injected_feats a) (_mu a) (_sigma a) (data_cache a).

Definition set__injected_nodes (v : list Z) (a : InjectionAttacker) : InjectionAttacker :=
  mkAttacker (_is_setup a) (_is_reset a) (num_nodes a) (num_feats a) (feat a)
    (_degree a) (ori_data a) (targets a) (num_budgets a) (feat_limits a)
    (feat_budgets a) (num_edges_global a) (num_edges_local a) v (_injected_edges a)
    (_injected_feats a) (_mu a) (_sigma a) (data_cache a).

Definition set__injected_edges (v : list ((Z * Z) * option Z)) (a : InjectionAttacker) : InjectionAttacker :=
  mkAttacker (_is_setup a) (_is_reset a) (num_nodes a) (num_feats a) (feat a)
    (_degree a) (ori_data a) (targets a) (num_budgets a) (feat_limits a)
    (feat_budgets a) (num_edges_global a) (num_edges_local a) (_injected_nodes a) v
    (_injected_feats a) (_mu a) (_sigma a) (data_cache a).

Definition set__injected_feats (v : list Tensor) (a : InjectionAttacker) : InjectionAttacker :=
  mkAttacker (_is_setup a) (_is_reset a) (num_nodes a) (num_feats a) (feat a)
    (_degree a) (ori_data a) (targets a) (num_budgets a) (feat_limits a)
    (feat_budgets a) (num_edges_global a) (num_edges_local a) (_injected_nodes a)
    (_injected_edges a) v (_mu a) (_sigma a) (data_cache a).

Definition set__mu (v : option Q) (a : InjectionAttacker) : InjectionAttacker :=
  mkAttacker (_is_setup a) (_is_reset a) (num_nodes a) (num_feats a) (feat a)
    (_degree a) (ori_data a) (targets a) (num_budgets a) (feat_limits a)
    (feat_budgets a) (num_edges_global a) (num_edges_local a) (_injected_nodes a)
    (_injected_edges a) (_injected_feats a) v (_sigma a) (data_cache a).

Definition set__sigma (v : option Q) (a : InjectionAttacker) : InjectionAttacker :=
  mkAttacker (_is_setup a) (_is_reset a) (num_nodes a) (num_feats a) (feat a)
    (_degree a) (ori_data a) (targets a) (num_budgets a) (feat_limits a)
    (feat_budgets a) (num_edges_global a) (num_edges_local a) (_injected_nodes a)
    (_injected_edges a) (_injected_feats a) (_mu a) v (data_cache a).

Definition set_data_cache (v : option (bool * Data)) (a : InjectionAttacker) : InjectionAttacker :=
  mkAttacker (_is_setup a) (_is_reset a) (num_nodes a) (num_feats a) (feat a)
    (_degree a) (ori_data a) (targets a) (num_budgets a) (feat_limits a)
    (feat_budgets a) (num_edges_global a) (num_edges_local a) (_injected_nodes a)
    (_injected_edges a) (_injected_feats a) (_mu a) (_sigma a) v.

(** [self] together with the dict objects that the caller owns and may pass
    by reference. *)
Record World : Type := mkWorld { self : InjectionAttacker; heap : gmap nat pydict }.

Definition on_self {A : Type} (c : M InjectionAttacker A) : M World A :=
  fun w => let (r, a') := c (self w) in (r, mkWorld a' (heap w)).

Definition store (ref : nat) (d : pydict) : M World unit :=
  modify (fun w => mkWorld (self w) (<[ref := d]> (heap w))).

(** Modelled from the spec: [Attacker.reset] of the base class is not among
    the sources.  The spec's [reset()] clears the edited state, and [attack]
    below refuses to run unless [_is_reset] holds and clears it at its end,
    so the base method is taken to set the flag. *)
Definition super_reset : M InjectionAttacker unit := modify (set__is_reset true).

Definition reset : M InjectionAttacker unit :=
  super_reset ;;
  modify (set_num_budgets None) ;;
  modify (set_feat_limits None) ;;
  modify (set_feat_budgets None) ;;
  modify (set_num_edges_global None) ;;
  modify (set_num_edges_local None) ;;
  modify (set__injected_nodes []) ;;
  modify (set__injected_edges []) ;;
  modify (set__injected_feats []) ;;
  modify (set_data_cache None).

(** Modelled from the spec: [Attacker._check_budget] is not among the
    sources.  The spec's [resolveBudget]: an integer is returned unchanged
    after checking [0 < spec <= maxPerturbations]; a fraction in (0,1] is
    multiplied by [maxPerturbations] and rounded down, with a floor of 1;
    anything else fails. *)
Definition _check_budget (num_budgets : number) (max_perturbations : Z) : exn + Z :=
  match num_budgets with
  | PyInt z =>
      if (0 <? z) && (z <=? max_perturbations) then inr z
      else inl (ValueError "num_budgets out of range")
  | PyFloat q =>
      if Qltb 0 q && Qle_bool q 1
      then inr (Z.max 1 (Qfloor (q * inject_Z max_perturbations)))
      else inl (ValueError "num_budgets out of range")
  end.

(** [mask.nonzero().view(-1).tolist()] *)
Fixpoint nonzero_from (i : Z) (mask : list bool) : list Z :=
  match mask with
  | [] => []
  | b :: mask' => (if b then [i] else []) ++ nonzero_from (i + 1) mask'
  end.

(** Lines 115-123. *)
Definition resolve_targets (targets : option targets_arg) (num_nodes : nat) : list Z :=
  match targets with
  | None => map Z.of_nat (seq 0 num_nodes)
  | Some (TargetsMask mask) => nonzero_from 0 mask
  | Some (TargetsIndices ids) => ids
  end.

(** [t.mean()] of a float tensor; no value (NaN) for a tensor without entries. *)
Definition tensor_mean (l : list Q) : option Q :=
  match l with
  | [] => None
  | _ => Some (Qsum l / inject_Z (Z.of_nat (length l)))%Q
  end.

(** [int(self._degree.mean().clamp(min=1))] *)
Definition default_num_edges_local (degree : list Q) : exn + Z :=
  match tensor_mean degree with
  | None => inl (ValueError "cannot convert float NaN to integer")
  | Some m => inr (int_of_float (Qmax m 1))
  end.

(** Lines 125-137: the number of edges of each injected node. *)
Definition resolve_num_edges_local (num_edges_global num_edges_local : option Z)
  : M InjectionAttacker Z :=
  if is_not_None num_edges_local && is_not_None num_edges_global
  then raise (RuntimeError
    "Both `num_edges_local` and `num_edges_global` cannot be used simultaneously.")
  else
    num_edges_local <-
      match num_edges_global with
      | Some g =>
          ts <- gets targets ;;
          ts <- require ts (AttributeError "targets") ;;
          let n := Z.of_nat (length ts) in
          if n =? 0 then raise ZeroDivisionError
          else
            let num_edges_local := g / n in
            if num_edges_local =? 0
            then raise (ValueError
              "Too less edges allowed for injected nodes. Maybe you could use the argument `num_edges_local` instead.")
            else ret (Some num_edges_local)
      | None => ret num_edges_local
      end ;;
    match num_edges_local with
    | Some l => ret l
    | None => degree <- gets _degree ;; lift (default_num_edges_local degree)
    end.

(** Lines 150-161: what the caller gave as [feat_limits], taken apart.  The
    two [pop]s write to the caller's dict before anything is checked.  A
    reference handed in by a caller has an object behind it; the error for
    a heap without one stands for no Python behaviour. *)
Definition unpack_feat_limits (feat_limits : option limits_arg)
  : M World (option Q * option Q) :=
  match feat_limits with
  | None => ret (None, None)
  | Some (LimitsTuple items) =>
      match items with
      | [min_limits; max_limits] => ret (min_limits, max_limits)
      | _ => raise (ValueError "wrong number of values to unpack (expected 2)")
      end
  | Some (LimitsDict ref) =>
      h <- gets heap ;;
      d <- require (h !! ref) (RuntimeError "no object behind the reference") ;;
      let (min_limits, d) := dict_pop "min" d in
      store ref d ;;
      let (max_limits, d) := dict_pop "max" d in
      store ref d ;;
      match d with
      | [] => ret (min_limits, max_limits)
      | (k, _) :: _ => raise (ValueError ("Unrecognized key " ++ k ++ "."))
      end
  | Some LimitsOther =>
      raise (TypeError "`feat_limits` should be an instance of tuple and dict.")
  end.

(** Lines 144-186: the limits of the injected features. *)
Definition resolve_feat_limits (feat_limits : option limits_arg) (feat_budgets : option Z)
  : M World unit :=
  if is_not_None feat_limits && is_not_None feat_budgets
  then raise (RuntimeError
    "Both `feat_limits` and `feat_budgets` cannot be used simultaneously.")
  else
    limits <- unpack_feat_limits feat_limits ;;
    let (min_limits, max_limits) := limits : option Q * option Q in
    feat <- gets (fun w => feat (self w)) ;;
    py_assert (is_not_None feat) "" ;;
    min_limits <-
      match min_limits, feat with
      | None, Some feat => lift (tensor_min feat)
      | _, _ => ret 0%Q
      end ;;
    max_limits <-
      match max_limits, feat with
      | None, Some feat => lift (tensor_max feat)
      | _, _ => ret 1%Q
      end ;;
    num_feats <- gets (fun w => num_feats (self w)) ;;
    match feat_budgets with
    | Some b => py_assert (b <=? Z.of_nat num_feats) ""
    | None => ret tt
    end ;;
    on_self (modify (set_feat_budgets feat_budgets)) ;;
    let mu := ((max_limits - min_limits) / 2)%Q in
    on_self (modify (set__mu (Some mu))) ;;
    on_self (modify (set__sigma (Some ((max_limits - mu) / 3)%Q))) ;;
    on_self (modify (set_feat_limits (Some (min_limits, max_limits)))).

Definition attack (num_budgets : number) (targets : option targets_arg)
  (num_edges_global num_edges_local : option Z)
  (feat_limits : option limits_arg) (feat_budgets : option Z) : M World unit :=
  a <- gets self ;;
  let is_setup := match _is_setup a with Some b => b | None => true end in
  if negb is_setup
  then raise (RuntimeError
    "requires a surrogate model to conduct attack. Use `attacker.setup_surrogate(surrogate_model)`.")
  else if negb (_is_reset a)
  then raise (RuntimeError
    "Before calling attack, you must reset your attacker. Use `attacker.reset()`.")
  else
    num_budgets <- lift (_check_budget num_budgets (Z.of_nat (num_nodes a))) ;;
    on_self (modify (set_targets (Some (resolve_targets targets (num_nodes a))))) ;;
    num_edges_local <- on_self (resolve_num_edges_local num_edges_global num_edges_local) ;;
    on_self (modify (set_num_budgets (Some num_budgets))) ;;
    on_self (modify (set_num_edges_global num_edges_global)) ;;
    on_self (modify (set_num_edges_local (Some num_edges_local))) ;;
    resolve_feat_limits feat_limits feat_budgets ;;
    on_self (modify (set__is_reset false)).

(** [injected_nodes()]: [_injected_nodes] is a list in this class ([reset]
    and [inject_node] are its only writers). *)
Definition injected_nodes (a : InjectionAttacker) : option (list Z) :=
  match _injected_nodes a with
  | [] => None
  | nodes => Some nodes
  end.

(** [injected_edges()]: the keys of the dict, transposed into a row of
    sources and a row of destinations. *)
Definition injected_edges (a : InjectionAttacker) : option (list Z * list Z) :=
  match _injected_edges a with
  | [] => None
  | edges => Some (map (fun e => fst (fst e)) edges, map (fun e => snd (fst e)) edges)
  end.

Definition injected_feats (a : InjectionAttacker) : exn + option Tensor :=
  match _injected_feats a with
  | [] => inr None
  | feats => rbind (stack feats) (fun t => inr (Some t))
  end.

(** What the global random generator hands out during one [inject_node]:
    the outcome of [torch.randperm(num_feats)] and of [uniform_]. *)
Record Draw : Type := mkDraw { randperm : list nat; uniform : list Q }.

Definition inject_node (node : Z) (feat_arg : option Tensor) (rnd : Draw)
  : M InjectionAttacker unit :=
  a <- get ;;
  feat_arg <-
    match feat_arg with
    | None =>
        match feat_budgets a with
        | Some budgets =>
            _ <- require (feat a) (AttributeError "new_zeros") ;;
            let feat_arg := new_zeros [1%nat; num_feats a] in
            let idx := slice_to budgets (randperm rnd) in
            lift (index_put feat_arg idx 1%Q)
        | None =>
            _ <- require (feat a) (AttributeError "new_empty") ;;
            limits <- require (feat_limits a)
                        (TypeError "argument after * must be an iterable, not NoneType") ;;
            if Qltb (snd limits) (fst limits)
            then raise (RuntimeError "uniform_ expects to return a [from, to) range")
            else ret (mkTensor [num_feats a] (uniform rnd))
        end
    | Some feat_arg =>
        match feat_budgets a with
        | Some budgets =>
            py_assert (count_nonzero feat_arg <=? budgets) "" ;;
            ret feat_arg
        | None =>
            limits <- require (feat_limits a)
                        (TypeError "'NoneType' object is not subscriptable") ;;
            lo <- lift (tensor_min feat_arg) ;;
            py_assert (Qle_bool (fst limits) lo) "" ;;
            hi <- lift (tensor_max feat_arg) ;;
            py_assert (Qle_bool hi (snd limits)) "" ;;
            ret feat_arg
        end
    end ;;
  modify (fun a => set__injected_nodes (_injected_nodes a ++ [node]) a) ;;
  modify (fun a => set__injected_feats (_injected_feats a ++ [feat_arg]) a).

Definition edge_eqb (e1 e2 : Z * Z) : bool :=
  (fst e1 =? fst e2) && (snd e1 =? snd e2).

(** [d[key] = it] on the insertion-ordered dict. *)
Fixpoint dict_set (key : Z * Z) (it : option Z) (d : list ((Z * Z) * option Z))
  : list ((Z * Z) * option Z) :=
  match d with
  | [] => [(key, it)]
  | (k, v) :: d' => if edge_eqb k key then (k, it) :: d' else (k, v) :: dict_set key it d'
  end.

Definition inject_edge (u v : Z) (it : option Z) : M InjectionAttacker unit :=
  modify (fun a => set__injected_edges (dict_set (u, v) it (_injected_edges a)) a).

Section WithUtils.

(** [graphwar.utils.add_edges] is not among the sources. *)
Variable add_edges : list (Z * Z) -> option (list Z * list Z) -> bool -> exn + list (Z * Z).

(** [data(symmetric)], memoised by [lru_cache(maxsize=1)]: a call that
    raises leaves the cache as it was. *)
Definition data (symmetric : bool) : M InjectionAttacker Data :=
  a <- get ;;
  let compute : M InjectionAttacker Data :=
    let data := ori_data a in
    let injected_edges := injected_edges a in
    injected_feats <- lift (injected_feats a) ;;
    x' <- lift (cat [Some (x data); injected_feats]) ;;
    edge_index' <- lift (add_edges (edge_index data) injected_edges symmetric) ;;
    let data := mkData x' edge_index' in
    modify (set_data_cache (Some (symmetric, data))) ;;
    ret data in
  match data_cache a with
  | Some (key, cached) => if Bool.eqb key symmetric then ret cached else compute
  | None => compute
  end.

End WithUtils.

End Injection.

(** ** PRBCDAttack (greatx/attack/targeted/rbcd_attack.py) *)

Module PRBCD.
Import Py Torch.
Local Open Scope py_scope.
Local Open Scope Z_scope.

(** Values kept in the [coeffs] dict. *)
Inductive pyval : Type :=
| VBool (b : bool)
| VNum (q : Q)
| VNone.

Definition truthy (v : pyval) : bool :=
  match v with
  | VBool b => b
  | VNum q => negb (Qeq_bool q 0)
  | VNone => false
  end.

Definition as_number (v : pyval) : exn + Q :=
  match v with
  | VBool b => inr (if b then 1%Q else 0%Q)
  | VNum q => inr q
  | VNone => inl (TypeError "unsupported operand type: NoneType")
  end.

(** The function objects that can be bound to [self.loss] and [self.metric]:
    the three losses imported from [greatx.functional], and callables of the
    caller. *)
Inductive callable : Type :=
| masked_cross_entropy
| probability_margin_loss
| tanh_margin_loss
| user_callable (id : nat).

(** What a caller can pass for [loss] and [metric] besides [None]. *)
Inductive pyobj : Type :=
| Str (s : string)
| Fn (f : callable).

(** [float('-Inf')] or the value of a metric. *)
Inductive ext : Type :=
| NegInf
| Fin (q : Q).

(** [m > b], for a metric [m] that is a number: a NaN or infinite metric,
    for which the comparison of the code can be false against minus
    infinity, is outside this model. *)
Definition gt_ext (m : Q) (b : ext) : bool :=
  match b with
  | NegInf => true
  | Fin q => Qltb q m
  end.

Definition ext_le (a b : ext) : Prop :=
  match a, b with
  | NegInf, _ => True
  | Fin _, NegInf => False
  | Fin p, Fin q => (p <= q)%Q
  end.

(** The per-epoch record of monitoring values, a dict in insertion order. *)
Definition scalars : Type := list (string * Q).

(** The attributes that the base classes ([Attacker], [FlipAttacker],
    [TargetedAttacker], [RBCDAttack]) own and this file only reads. *)
Record Attacker : Type := mkBase {
  feat : Tensor;
  edge_index : list (Z * Z);
  num_edges : nat;
  num_nodes : nat;
  num_budgets : Z;
  target_label : option Z;
  adjacency_matrix : Z -> Z -> Q;
  coeffs : gmap string pyval
}.

Definition set_coeffs (v : gmap string pyval) (b : Attacker) : Attacker :=
  mkBase (feat b) (edge_index b) (num_edges b) (num_nodes b) (num_budgets b)
    (target_label b) (adjacency_matrix b) v.

Record PRBCDAttack : Type := mkPRBCD {
  base : Attacker;
  current_block : option (list Z);
  block_edge_index : option (list (Z * Z));
  block_edge_weight : option (list Q);
  loss : option pyobj;
  metric : option pyobj;
  victim_nodes : option (list Z);
  victim_labels : option (list Z);
  _edge_index : list (Z * Z);
  _edge_weight : list Q;
  best_metric : ext;
  best_block : option (list Z);
  best_edge_index : option (list (Z * Z));
  best_pert_edge_weight : option (list Q);
  attack_statistics : gmap string (list Q);
  block_size : Z;
  epochs_resampling : Z;
  lr : Q;
  rng : nat
}.

Definition set_base (v : Attacker) (a : PRBCDAttack) : PRBCDAttack :=
  mkPRBCD v (current_block a) (block_edge_index a) (block_edge_weight a) (loss a)
    (metric a) (victim_nodes a) (victim_labels a) (_edge_index a) (_edge_weight a)
    (best_metric a) (best_block a) (best_edge_index a) (best_pert_edge_weight a)
    (attack_statistics a) (block_size a) (epochs_resampling a) (lr a) (rng a).

Definition set_current_block (v : option (list Z)) (a : PRBCDAttack) : PRBCDAttack :=
  mkPRBCD (base a) v (block_edge_index a) (block_edge_weight a) (loss a) (metric a)
    (victim_nodes a) (victim_labels a) (_edge_index a) (_edge_weight a) (best_metric a)
    (best_block a) (best_edge_index a) (best_pert_edge_weight a) (attack_statistics a)
    (block_size a) (epochs_resampling a) (lr a) (rng a).

Definition set_block_edge_index (v : option (list (Z * Z))) (a : PRBCDAttack) : PRBCDAttack :=
  mkPRBCD (base a) (current_block a) v (block_edge_weight a) (loss a) (metric a)
    (victim_nodes a) (victim_labels a) (_edge_index a) (_edge_weight a) (best_metric a)
    (best_block a) (best_edge_index a) (best_pert_edge_weight a) (attack_statistics a)
    (block_size a) (epochs_resampling a) (lr a) (rng a).

Definition set_block_edge_weight (v : option (list Q)) (a : PRBCDAttack) : PRBCDAttack :=
  mkPRBCD (base a) (current_block a) (block_edge_index a) v (loss a) (metric a)
    (victim_nodes a) (victim_labels a) (_edge_index a) (_edge_weight a) (best_metric a)
    (best_block a) (best_edge_index a) (best_pert_edge_weight a) (attack_statistics a)
    (block_size a) (epochs_resampling a) (lr a) (rng a).

Definition set_loss (v : option pyobj) (a : PRBCDAttack) : PRBCDAttack :=
  mkPRBCD (base a) (current_block a) (block_edge_index a) (block_edge_weight a) v
    (metric a) (victim_nodes a) (victim_labels a) (_edge_index a) (_edge_weight a)
    (best_metric a) (best_block a) (best_edge_index a) (best_pert_edge_weight a)
    (attack_statistics a) (block_size a) (epochs_resampling a) (lr a) (rng a).

Definition set_metric (v : option pyobj) (a : PRBCDAttack) : PRBCDAttack :=
  mkPRBCD (base a) (current_block a) (block_edge_index a) (block_edge_weight a) (loss a)
    v (victim_nodes a) (victim_labels a) (_edge_index a) (_edge_weight a)
    (best_metric a) (best_block a) (best_edge_index a) (best_pert_edge_weight a)
    (attack_statistics a) (block_size a) (epochs_resampling a) (lr a) (rng a).

Definition set_victim_nodes (v : option (list Z)) (a : PRBCDAttack) : PRBCDAttack :=
  mkPRBCD (base a) (current_block a) (block_edge_index a) (block_edge_weight a) (loss a)
    (metric a) v (victim_labels a) (_edge_index a) (_edge_weight a) (best_metric a)
    (best_block a) (best_edge_index a) (best_pert_edge_weight a) (attack_statistics a)
    (block_size a) (epochs_resampling a) (lr a) (rng a).

Definition set_victim_labels (v : option (list Z)) (a : PRBCDAttack) : PRBCDAttack :=
  mkPRBCD (base a) (current_block a) (block_edge_index a) (block_edge_weight a) (loss a)
    (metric a) (victim_nodes a) v (_edge_index a) (_edge_weight a) (best_metric a)
    (best_block a) (best_edge_index a) (best_pert_edge_weight a) (attack_statistics a)
    (block_size a) (epochs_resampling a) (lr a) (rng a).

Definition set__edge_index (v : list (Z * Z)) (a : PRBCDAttack) : PRBCDAttack :=
  mkPRBCD (base a) (current_block a) (block_edge_index a) (block_edge_weight a) (loss a)
    (metric a) (victim_nodes a) (victim_labels a) v (_edge_weight a) (best_metric a)
    (best_block a) (best_edge_index a) (best_pert_edge_weight a) (attack_statistics a)
    (block_size a) (epochs_resampling a) (lr a) (rng a).

Definition set__edge_weight (v : list Q) (a : PRBCDAttack) : PRBCDAttack :=
  mkPRBCD (base a) (current_block a) (block_edge_index a) (block_edge_weight a) (loss a)
    (metric a) (victim_nodes a) (victim_labels a) (_edge_index a) v (best_metric a)
    (best_block a) (best_edge_index a) (best_pert_edge_weight a) (attack_statistics a)
    (block_size a) (epochs_resampling a) (lr a) (rng a).

Definition set_best_metric (v : ext) (a : PRBCDAttack) : PRBCDAttack :=
  mkPRBCD (base a) (current_block a) (block_edge_index a) (block_edge_weight a) (loss a)
    (metric a) (victim_nodes a) (victim_labels a) (_edge_index a) (_edge_weight a) v
    (best_block a) (best_edge_index a) (best_pert_edge_weight a) (attack_statistics a)
    (block_size a) (epochs_resampling a) (lr a) (rng a).

Definition set_best_block (v : option (list Z)) (a : PRBCDAttack) : PRBCDAttack :=
  mkPRBCD (base a) (current_block a) (block_edge_index a) (block_edge_weight a) (loss a)
    (metric a) (victim_nodes a) (victim_labels a) (_edge_index a) (_edge_weight a)
    (best_metric a) v (best_edge_index a) (best_pert_edge_weight a)
    (attack_statistics a) (block_size a) (epochs_resampling a) (lr a) (rng a).

Definition set_best_edge_index (v : option (list (Z * Z))) (a : PRBCDAttack) : PRBCDAttack :=
  mkPRBCD (base a) (current_block a) (block_edge_index a) (block_edge_weight a) (loss a)
    (metric a) (victim_nodes a) (victim_labels a) (_edge_index a) (_edge_weight a)
    (best_metric a) (best_block a) v (best_pert_edge_weight a) (attack_statistics a)
    (block_size a) (epochs_resampling a) (lr a) (rng a).

Definition set_best_pert_edge_weight (v : option (list Q)) (a : PRBCDAttack) : PRBCDAttack :=
  mkPRBCD (base a) (current_block a) (block_edge_index a) (block_edge_weight a) (loss a)
    (metric a) (victim_nodes a) (victim_labels a) (_edge_index a) (_edge_weight a)
    (best_metric a) (best_block a) (best_edge_index a) v (attack_statistics a)
    (block_size a) (epochs_resampling a) (lr a) (rng a).

Definition set_attack_statistics (v : gmap string (list Q)) (a : PRBCDAttack) : PRBCDAttack :=
  mkPRBCD (base a) (current_block a) (block_edge_index a) (block_edge_weight a) (loss a)
    (metric a) (victim_nodes a) (victim_labels a) (_edge_index a) (_edge_weight a)
    (best_metric a) (best_block a) (best_edge_index a) (best_pert_edge_weight a) v
    (block_size a) (epochs_resampling a) (lr a) (rng a).

Definition set_block_size (v : Z) (a : PRBCDAttack) : PRBCDAttack :=
  mkPRBCD (base a) (current_block a) (block_edge_index a) (block_edge_weight a) (loss a)
    (metric a) (victim_nodes a) (victim_labels a) (_edge_index a) (_edge_weight a)
    (best_metric a) (best_block a) (best_edge_index a) (best_pert_edge_weight a)
    (attack_statistics a) v (epochs_resampling a) (lr a) (rng a).

Definition set_epochs_resampling (v : Z) (a : PRBCDAttack) : PRBCDAttack :=
  mkPRBCD (base a) (current_block a) (block_edge_index a) (block_edge_weight a) (loss a)
    (metric a) (victim_nodes a) (victim_labels a) (_edge_index a) (_edge_weight a)
    (best_metric a) (best_block a) (best_edge_index a) (best_pert_edge_weight a)
    (attack_statistics a) (block_size a) v (lr a) (rng a).

Definition set_lr (v : Q) (a : PRBCDAttack) : PRBCDAttack :=
  mkPRBCD (base a) (current_block a) (block_edge_index a) (block_edge_weight a) (loss a)
    (metric a) (victim_nodes a) (victim_labels a) (_edge_index a) (_edge_weight a)
    (best_metric a) (best_block a) (best_edge_index a) (best_pert_edge_weight a)
    (attack_statistics a) (block_size a) (epochs_resampling a) v (rng a).

Definition set_rng (v : nat) (a : PRBCDAttack) : PRBCDAttack :=
  mkPRBCD (base a) (current_block a) (block_edge_index a) (block_edge_weight a) (loss a)
    (metric a) (victim_nodes a) (victim_labels a) (_edge_index a) (_edge_weight a)
    (best_metric a) (best_block a) (best_edge_index a) (best_pert_edge_weight a)
    (attack_statistics a) (block_size a) (epochs_resampling a) (lr a) v.

Definition on_base {A : Type} (c : M Attacker A) : M PRBCDAttack A :=
  fun s => let (r, b') := c (base s) in (r, set_base b' s).

(** The three attributes that make up the current block. *)
Record Block : Type := mkBlock {
  ids : list Z;
  endpoints : list (Z * Z);
  weights : list Q
}.

(** *** Projection onto the budget *)

(** [torch.clamp(x, lo, hi)] on one entry. *)
Definition clamp (lo hi x : Q) : Q := Qmin (Qmax x lo) hi.

(** [clip(w - mu, 0, 1)] *)
Definition shift_clip (w : list Q) (mu : Q) : list Q :=
  map (fun x => clamp 0 1 (x - mu)) w.

(** [sum(clip(w - mu, 0, 1))] *)
Definition shifted_mass (w : list Q) (mu : Q) : Q := Qsum (shift_clip w mu).

(** Modelled from the spec: [greatx.attack.untargeted.utils.project] and its
    bisection are not among the sources.  The spec: a bisection search over
    a scalar shift [mu] such that [sum(clip(w - mu, 0, 1)) = budget], which
    ends when the width of the interval is below [eps] or a cap on the
    number of iterations is hit.  The search keeps a bracket [(lo, hi)] whose
    upper end never carries more mass than the budget, and halves it (the
    midpoint is kept in lowest terms). *)
Fixpoint bisection (max_iter : nat) (w : list Q) (budget eps lo hi : Q) : Q * Q :=
  match max_iter with
  | O => (lo, hi)
  | S n =>
      if Qltb (hi - lo) eps then (lo, hi)
      else
        let mid := Qred ((lo + hi) / 2) in
        if Qle_bool (shifted_mass w mid) budget
        then bisection n w budget eps lo mid
        else bisection n w budget eps mid hi
  end.

Definition Qmin_list (l : list Q) : Q :=
  match Qlist_min l with Some q => q | None => 0%Q end.

Definition Qmax_list (l : list Q) : Q :=
  match Qlist_max l with Some q => q | None => 0%Q end.

(** The bracket that the search of [project] starts from holds every
    useful shift: at [min(w) - 1] every entry is clipped to 1, at [max(w)]
    every entry is clipped to 0. *)
Definition final_bracket (max_iter : nat) (num_budgets : Z) (values : list Q) (eps : Q)
  : Q * Q :=
  bisection max_iter values (inject_Z num_budgets) eps
    (Qmin_list values - 1)%Q (Qmax_list values).

(** Modelled from the spec: [project(num_budgets, values, eps)].  The spec:
    it returns [clip(w - mu, 0, 1)]; when the clipped weights are within
    the budget already no shift is needed ([mu = 0]); otherwise [mu] comes
    from the bisection.  The spec does not say which shift of the final
    bracket is returned (an end, the midpoint, ...): it is [pick lo hi]
    for the final bracket [(lo, hi)], and [pick] is a parameter. *)
Definition project (max_iter : nat) (pick : Q -> Q -> Q) (num_budgets : Z)
  (values : list Q) (eps : Q) : list Q :=
  let budget := inject_Z num_budgets in
  if Qle_bool (shifted_mass values 0) budget
  then shift_clip values 0
  else
    let r := final_bracket max_iter num_budgets values eps in
    shift_clip values (pick (fst r) (snd r)).


(** *** The collaborators

    Methods of the base classes, the surrogate model and the torch
    primitives whose code is not among the sources.  Each is given the
    signature of its contract in the spec: the block sampler reads [self]
    and produces a block (and the next state of the random generator), the
    gradient step produces the new weights, the final sampler produces the
    flipped edges.  [bisection_max_iter] and [bisection_pick] are the two
    choices that the spec leaves to [project]: the cap on the iterations
    and the shift that is returned for the final bracket.  [call] returns
    a number: a metric that is NaN or infinite is outside this model. *)
Class Collaborators : Type := {
  super_reset : M Attacker unit;
  super_attack : Z -> option Z -> option number -> bool -> bool -> bool -> M Attacker unit;
  remove_edge : Z -> Z -> nat -> M Attacker unit;
  add_edge : Z -> Z -> nat -> M Attacker unit;
  sample_random_block : Z -> PRBCDAttack -> exn + (Block * nat);
  resample_random_block : Z -> PRBCDAttack -> exn + (Block * nat);
  compute_gradients : Tensor -> list Z -> list Z -> PRBCDAttack -> exn + (Q * list Q);
  update_edge_weights : Z -> Z -> list Q -> PRBCDAttack -> exn + list Q;
  get_modified_graph :
    list (Z * Z) -> list Q -> option (list (Z * Z)) -> list Q -> exn + (list (Z * Z) * list Q);
  sample_final_edges :
    Tensor -> Z -> option (list Z) -> option (list Z) -> PRBCDAttack -> exn + (list (Z * Z) * nat);
  surrogate : Tensor -> list (Z * Z) -> list Q -> list (list Q);
  call : callable -> list (list Q) -> list Z -> Q;
  topk : list Q -> Z -> exn + list nat;
  bisection_max_iter : nat;
  bisection_pick : Q -> Q -> Q
}.

Section Methods.

Context {C : Collaborators}.

Definition install_block (r : Block * nat) : M PRBCDAttack unit :=
  modify (set_current_block (Some (ids (fst r)))) ;;
  modify (set_block_edge_index (Some (endpoints (fst r)))) ;;
  modify (set_block_edge_weight (Some (weights (fst r)))) ;;
  modify (set_rng (snd r)).

Definition reset : M PRBCDAttack unit :=
  on_base super_reset ;;
  modify (set_current_block None) ;;
  modify (set_block_edge_index None) ;;
  modify (set_block_edge_weight None) ;;
  modify (set_loss None) ;;
  modify (set_metric None) ;;
  modify (set_victim_nodes None) ;;
  modify (set_victim_labels None) ;;
  modify (fun s => set__edge_index (edge_index (base s)) s) ;;
  modify (fun s => set__edge_weight (repeat 1%Q (num_edges (base s))) s) ;;
  modify (set_best_metric NegInf) ;;
  modify (set_attack_statistics ∅).

(** [self.coeffs[key]] *)
Definition coeff (key : string) : M PRBCDAttack pyval :=
  c <- gets (fun s => coeffs (base s) !! key) ;;
  require c (KeyError key).

(** [l[i]] for an integer [i], which may count from the end. *)
Definition py_index {A : Type} (l : list A) (i : Z) : exn + A :=
  let n := Z.of_nat (length l) in
  let j := if i <? 0 then i + n else i in
  match (if (0 <=? j) && (j <? n) then nth_error l (Z.to_nat j) else None) with
  | Some a => inr a
  | None => inl (IndexError "index out of range in self")
  end.

(** [t[idx]] for an index tensor [idx], along the first dimension. *)
Fixpoint index_rows {A : Type} (l : list A) (idx : list Z) : exn + list A :=
  match idx with
  | [] => inr []
  | i :: idx' =>
      rbind (py_index l i) (fun a => rbind (index_rows l idx') (fun r => inr (a :: r)))
  end.

(** [self.metric(prediction, self.victim_labels)] *)
Definition call_metric (prediction : list (list Q)) (labels : list Z) : M PRBCDAttack Q :=
  f <- gets metric ;;
  match f with
  | Some (Fn f) => ret (call f prediction labels)
  | Some (Str _) => raise (TypeError "'str' object is not callable")
  | None => raise (TypeError "'NoneType' object is not callable")
  end.

(** Lines 199-209: the metric of the current weights, on the graph that
    flips the [num_budgets] heaviest edges of the block. *)
Definition epoch_metric (num_budgets : Z) : M PRBCDAttack Q :=
  s <- get ;;
  w <- require (block_edge_weight s) (TypeError "zeros_like(): argument must be Tensor") ;;
  idx <- lift (topk w num_budgets) ;;
  let topk_block_edge_weight :=
    fold_left (fun l i => <[i := 1%Q]> l) idx (repeat 0%Q (length w)) in
  g <- lift (get_modified_graph (_edge_index s) (_edge_weight s) (block_edge_index s)
               topk_block_edge_weight) ;;
  let logits := surrogate (feat (base s)) (fst g) (snd g) in
  nodes <- require (victim_nodes s) (TypeError "victim_nodes is None") ;;
  prediction <- lift (index_rows logits nodes) ;;
  labels <- require (victim_labels s) (TypeError "victim_labels is None") ;;
  call_metric prediction labels.

(** Lines 211-217: save the best epoch.  [cpu().clone()] copies the block
    and its edge index; [cpu().detach()] copies nothing, the best weights
    are the tensor of the block weights.  The tensors are values here: the
    steps that follow produce new block weights (as the spec's [step] and
    [project] do) and do not write into that tensor. *)
Definition save_best (metric : Q) : M PRBCDAttack unit :=
  best <- gets best_metric ;;
  if gt_ext metric best
  then
    modify (set_best_metric (Fin metric)) ;;
    b <- gets current_block ;;
    b <- require b (AttributeError "cpu") ;;
    modify (set_best_block (Some b)) ;;
    e <- gets block_edge_index ;;
    e <- require e (AttributeError "cpu") ;;
    modify (set_best_edge_index (Some e)) ;;
    w <- gets block_edge_weight ;;
    w <- require w (AttributeError "cpu") ;;
    modify (set_best_pert_edge_weight (Some w))
  else ret tt.

(** Lines 225-228, and 239-241: the best epoch becomes the current block.
    An attribute that no epoch has written yet does not exist. *)
Definition retrieve_best : M PRBCDAttack unit :=
  b <- gets best_block ;;
  b <- require b (AttributeError "best_block") ;;
  modify (set_current_block (Some b)) ;;
  e <- gets best_edge_index ;;
  e <- require e (AttributeError "best_edge_index") ;;
  modify (set_block_edge_index (Some e)) ;;
  w <- gets best_pert_edge_weight ;;
  w <- require w (AttributeError "best_pert_edge_weight") ;;
  modify (set_block_edge_weight (Some w)).

(** Lines 219-228: resampling of the search space. *)
Definition resample_or_retrieve (epoch num_budgets : Z) : M PRBCDAttack unit :=
  epochs_resampling <- gets epochs_resampling ;;
  if epoch <? epochs_resampling - 1
  then
    s <- get ;;
    r <- lift (resample_random_block num_budgets s) ;;
    install_block r
  else if epoch =? epochs_resampling - 1
  then retrieve_best
  else ret tt.

(** Lines 174-191: the gradient step, the projection and the monitoring
    values. *)
Definition step_and_project (epoch : Z) (gradient : list Q) (num_budgets : Z)
  : M PRBCDAttack scalars :=
  s <- get ;;
  w <- lift (update_edge_weights num_budgets epoch gradient s) ;;
  modify (set_block_edge_weight (Some w)) ;;
  let pmass_update := map (clamp 0 1) w in
  eps <- coeff "eps" ;;
  eps <- lift (as_number eps) ;;
  let projected := project bisection_max_iter bisection_pick num_budgets w eps in
  modify (set_block_edge_weight (Some projected)) ;;
  pmass_max <- require (Qlist_max pmass_update) (RuntimeError "max(): empty tensor") ;;
  eps <- coeff "eps" ;;
  eps <- lift (as_number eps) ;;
  projected_max <- require (Qlist_max projected) (RuntimeError "max(): empty tensor") ;;
  ret [ ("prob_mass_after_update", Qsum pmass_update);
        ("prob_mass_after_update_max", pmass_max);
        ("prob_mass_afterprojection", Qsum projected);
        ("prob_mass_afterprojection_nonzero_weights",
         inject_Z (Z.of_nat (length (filter (fun x => Qltb eps x) projected))));
        ("prob_mass_afterprojection_max", projected_max) ].

Definition update (epoch : Z) (gradient : list Q) (num_budgets : Z) : M PRBCDAttack scalars :=
  scalars <- step_and_project epoch gradient num_budgets ;;
  with_early_stopping <- coeff "with_early_stopping" ;;
  if negb (truthy with_early_stopping) then ret scalars
  else
    metric <- epoch_metric num_budgets ;;
    save_best metric ;;
    resample_or_retrieve epoch num_budgets ;;
    ret (scalars ++ [("metric", metric)]).

Definition prepare (num_budgets epochs : Z) : M PRBCDAttack (list Z) :=
  s <- get ;;
  r <- lift (sample_random_block num_budgets s) ;;
  install_block r ;;
  ret (map Z.of_nat (seq 0 (Z.to_nat epochs))).

Definition get_flipped_edges : M PRBCDAttack (list (Z * Z)) :=
  with_early_stopping <- coeff "with_early_stopping" ;;
  (if truthy with_early_stopping then retrieve_best else ret tt) ;;
  s <- get ;;
  r <- lift (sample_final_edges (feat (base s)) (num_budgets (base s))
               (victim_nodes s) (victim_labels s) s) ;;
  modify (set_rng (snd r)) ;;
  ret (fst r).

(** Modelled from the spec: [RBCDAttack._append_statistics] is not among the
    sources.  The statistics log is append-only: each value of the record
    is appended to the list kept under its key. *)
Definition _append_statistics (sc : scalars) : M PRBCDAttack unit :=
  modify (fun s =>
    set_attack_statistics
      (fold_left (fun m kv => <[fst kv := default [] (m !! fst kv) ++ [snd kv]]> m)
                 sc (attack_statistics s)) s).

(** The arguments of [attack]; [kwargs] are the extra keyword arguments. *)
Record Args : Type := mkArgs {
  target : Z;
  arg_target_label : option Z;
  arg_num_budgets : option number;
  direct_attack : bool;
  arg_block_size : Z;
  epochs : Z;
  arg_epochs_resampling : Z;
  arg_loss : option pyobj;
  arg_metric : option pyobj;
  arg_lr : Q;
  structure_attack : bool;
  feature_attack : bool;
  kwargs : list (string * pyval)
}.

(** [loss == name] *)
Definition is_str (o : option pyobj) (name : string) : bool :=
  match o with
  | Some (Str s) => String.eqb s name
  | _ => false
  end.

(** Lines 100-111: the loss and the metric. *)
Definition select_loss (loss metric : option pyobj) : M PRBCDAttack unit :=
  py_assert (existsb (is_str loss) ["mce"; "prob_margin"; "tanh_margin"]%string) "" ;;
  (if is_str loss "mce" then modify (set_loss (Some (Fn masked_cross_entropy)))
   else if is_str loss "prob_margin" then modify (set_loss (Some (Fn probability_margin_loss)))
   else modify (set_loss (Some (Fn tanh_margin_loss)))) ;;
  match metric with
  | None => modify (fun s => set_metric (PRBCD.loss s) s)
  | Some m => modify (set_metric (Some m))
  end.

(** Lines 136-145: the loop over the epochs. *)
Fixpoint epoch_loop (steps : list Z) (feat : Tensor) (victim_labels victim_nodes : list Z)
  (num_budgets : Z) : M PRBCDAttack unit :=
  match steps with
  | [] => ret tt
  | step :: steps' =>
      s <- get ;;
      lg <- lift (compute_gradients feat victim_labels victim_nodes s) ;;
      scalars <- update step (snd lg) num_budgets ;;
      _append_statistics (scalars ++ [("loss", fst lg)]) ;;
      epoch_loop steps' feat victim_labels victim_nodes num_budgets
  end.

(** Lines 93-145: everything up to the end of the epoch loop. *)
Definition attack_epochs (a : Args) : M PRBCDAttack unit :=
  on_base (super_attack (target a) (arg_target_label a) (arg_num_budgets a)
             (direct_attack a) (structure_attack a) (feature_attack a)) ;;
  modify (set_block_size (arg_block_size a)) ;;
  select_loss (arg_loss a) (arg_metric a) ;;
  modify (set_epochs_resampling (arg_epochs_resampling a)) ;;
  modify (set_lr (arg_lr a)) ;;
  on_base (modify (fun b =>
    set_coeffs (fold_left (fun m kv => <[fst kv := snd kv]> m) (kwargs a) (coeffs b)) b)) ;;
  num_budgets <- gets (fun s => num_budgets (base s)) ;;
  modify (set_victim_nodes (Some [target a])) ;;
  label <- gets (fun s => target_label (base s)) ;;
  label <- require label (RuntimeError "Could not infer dtype of NoneType") ;;
  modify (set_victim_labels (Some [label])) ;;
  feat <- gets (fun s => feat (base s)) ;;
  steps <- prepare num_budgets (epochs a) ;;
  epoch_loop steps feat [label] [target a] num_budgets.

(** Lines 153-157: each flipped edge is removed when the graph has it and
    added otherwise. *)
Fixpoint flip_edges (it : nat) (flipped_edges : list (Z * Z)) : M PRBCDAttack unit :=
  match flipped_edges with
  | [] => ret tt
  | (u, v) :: rest =>
      adj <- gets (fun s => adjacency_matrix (base s) u v) ;;
      (if Qltb 0 adj then on_base (remove_edge u v it) else on_base (add_edge u v it)) ;;
      flip_edges (S it) rest
  end.

Definition budget_message : string := "# perturbed edges exceeds num_budgets".

Definition attack (a : Args) : M PRBCDAttack unit :=
  attack_epochs a ;;
  flipped_edges <- get_flipped_edges ;;
  num_budgets <- gets (fun s => num_budgets (base s)) ;;
  py_assert (Z.of_nat (length flipped_edges) <=? num_budgets) budget_message ;;
  flip_edges 0 flipped_edges.

End Methods.

(** The best-known-so-far snapshot. *)
Definition best_state (s : PRBCDAttack)
  : ext * option (list Z) * option (list (Z * Z)) * option (list Q) :=
  (best_metric s, best_block s, best_edge_index s, best_pert_edge_weight s).

(** A step under which the best metric does not fall. *)
Definition grows {A : Type} (c : M PRBCDAttack A) : Prop :=
  forall s, ext_le (best_metric s) (best_metric (snd (c s))).

End PRBCD.

(** ** A small concrete setting

    Collaborators simple enough to run, and a three-node graph: they give
    the concrete runs on which the statements below are exercised. *)

Module Toy.
Import Py Torch PRBCD.
Local Open Scope Z_scope.

(** Insert [(i, x)] into a list kept in descending order of weight; equal
    weights stay in the order of their positions. *)
Fixpoint insert_desc (p : nat * Q) (l : list (nat * Q)) : list (nat * Q) :=
  match l with
  | [] => [p]
  | q :: l' => if Qltb (snd q) (snd p) then p :: q :: l' else q :: insert_desc p l'
  end.

Definition sort_desc (l : list (nat * Q)) : list (nat * Q) :=
  fold_right insert_desc [] l.

(** The positions of the [k] largest entries. *)
Definition topk_indices (w : list Q) (k : Z) : exn + list nat :=
  if (k <? 0) || (Z.of_nat (length w) <? k)
  then inl (RuntimeError "selected index k out of range")
  else inr (firstn (Z.to_nat k) (map fst (sort_desc (combine (seq 0 (length w)) w)))).

Definition block_of (s : PRBCDAttack) : Block :=
  mkBlock (default [] (current_block s)) (default [] (block_edge_index s))
          (default [] (block_edge_weight s)).

(** Every candidate edge of the three-node graph, with weight zero. *)
Definition first_block : Block :=
  mkBlock [1; 2; 5] [(0, 1); (0, 2); (1, 2)] [0; 0; 0]%Q.

(** A resampling that keeps the weights and renumbers the block, so that a
    resampled block can be told from the block it came from. *)
Definition renumbered (s : PRBCDAttack) : Block :=
  mkBlock (map (Z.add 10) (ids (block_of s))) (endpoints (block_of s)) (weights (block_of s)).

Definition heaviest_edges (num_budgets : Z) (s : PRBCDAttack) : list (Z * Z) :=
  match topk_indices (weights (block_of s)) (Z.min num_budgets (Z.of_nat (length (weights (block_of s))))) with
  | inr idx => omap (fun i => endpoints (block_of s) !! i) idx
  | inl _ => []
  end.

#[local] Instance toy : Collaborators := {|
  super_reset := ret tt;
  super_attack := fun _ _ _ _ _ _ => ret tt;
  remove_edge := fun _ _ _ => ret tt;
  add_edge := fun _ _ _ => ret tt;
  sample_random_block := fun _ s => inr (first_block, S (rng s));
  resample_random_block := fun _ s => inr (renumbered s, S (rng s));
  compute_gradients := fun _ _ _ s =>
    inr (0%Q, map (fun i => inject_Z (Z.of_nat (S i)) / 4)%Q (seq 0 (length (weights (block_of s)))));
  update_edge_weights := fun _ _ g s =>
    inr (map (fun p => Qred (fst p + snd p)) (combine (weights (block_of s)) g));
  get_modified_graph := fun ei ew _ w => inr (ei, ew ++ w);
  sample_final_edges := fun _ nb _ _ s => inr (heaviest_edges nb s, S (rng s));
  surrogate := fun x _ ew => map (fun _ => [Qsum ew; 0%Q]) (seq 0 (hd 0%nat (shape x)));
  call := fun _ prediction _ => Qsum (map (fun row => hd 0%Q row) prediction);
  topk := topk_indices;
  bisection_max_iter := 50;
  bisection_pick := fun _ hi => hi
|}.



Definition toy_base : Attacker :=
  mkBase (mkTensor [3%nat; 1%nat] [1; 0; 1]%Q) [(0, 1); (1, 0)] 2 3 1 (Some 0)
    (fun u v => if ((u =? 0) && (v =? 1)) || ((u =? 1) && (v =? 0)) then 1%Q else 0%Q)
    (<["with_early_stopping" := VBool true]> (<["eps" := VNum (1 # 10000000)]> ∅)).

(** The object as its constructor leaves it: the attributes of the best
    epoch do not exist yet. *)
Definition toy_attacker : PRBCDAttack :=
  mkPRBCD toy_base None None None None None None None [] [] NegInf None None None ∅
    0 0 0%Q 0.

(** Four epochs, the first three of them before the end of the resampling. *)
Definition toy_args_with (loss : option pyobj) : Args :=
  mkArgs 0 None (Some (PyInt 1)) true 250000 4 3 loss None 2000%Q true false [].

Definition toy_args : Args := toy_args_with (Some (Str "tanh_margin")).

(** The object after [reset()], and after the epoch loop of [attack]. *)
Definition toy_fresh : PRBCDAttack := snd (reset toy_attacker).

Definition toy_running : PRBCDAttack := snd (attack_epochs toy_args toy_fresh).

(** The same object with [with_early_stopping=False] among the coefficients. *)
Definition without_early_stopping (s : PRBCDAttack) : PRBCDAttack :=
  set_base (set_coeffs (<["with_early_stopping" := VBool false]> (coeffs (base s))) (base s)) s.

Definition toy_gradient : list Q := [1 # 4; 1 # 2; 3 # 4]%Q.



(** The monitoring record of a call of [update] that returned. *)
Definition scalars_of (r : (exn + scalars) * PRBCDAttack) : scalars :=
  match fst r with
  | inr sc => sc
  | inl _ => []
  end.

End Toy.

(** ** The spec's wording of the default edge count *)

Module SpecWords.
Local Open Scope Z_scope.

(** Python's [round]: to the nearest integer, a tie to the even one. *)
Definition py_round (q : Q) : Z :=
  let f := Qfloor q in
  let r := (q - inject_Z f)%Q in
  if Py.Qltb r (1 # 2) then f
  else if Py.Qltb (1 # 2) r then f + 1
  else if Z.even f then f else f + 1.

(** The spec: when neither count is set, the edge count defaults to
    [round(meanDegree)] clamped to at least 1. *)
Definition spec_default_edge_count (meanDegree : Q) : Z :=
  Z.max 1 (py_round meanDegree).

(** The spec's registry of named losses. *)
Definition named_loss (name : string) : option PRBCD.callable :=
  if String.eqb name "mce" then Some PRBCD.masked_cross_entropy
  else if String.eqb name "prob_margin" then Some PRBCD.probability_margin_loss
  else if String.eqb name "tanh_margin" then Some PRBCD.tanh_margin_loss
  else None.

End SpecWords.

(** ** A small injection attacker *)

Module ToyInjection.
Import Py Torch Injection.
Local Open Scope Z_scope.

(** Three nodes with two features each; the entries range from -1 to 3. *)
Definition toy_feat : Tensor :=
  mkTensor [3%nat; 2%nat] [0; 1 # 2; 3; 1; -1; 2]%Q.

(** The object after [reset()]; the degrees are 2, 3 and 3. *)
Definition toy_injector : InjectionAttacker :=
  snd (reset
    (mkAttacker None false 3 2 (Some toy_feat) [2; 3; 3]%Q
       (mkData toy_feat [(0, 1); (1, 2)])
       None None None None None None [] [] [] None None None)).

(** The caller holds one dict, [{'max': 5, 'min': 2}], behind reference 7. *)
Definition toy_world : World :=
  mkWorld toy_injector (<[7%nat := [("max"%string, Some 5%Q); ("min"%string, Some 2%Q)]]> ∅).

(** [toy_injector] after [attack(2, feat_budgets=b)]. *)
Definition with_feat_budgets (b : Z) : InjectionAttacker :=
  self (snd (attack (PyInt 2) None None None None (Some b) toy_world)).

End ToyInjection.

(** ** Readers of the injection ledger *)

Module InjectionReads.
Import Py Torch Injection.
Local Open Scope Z_scope.

(** [d.get(key)] on the dict of injected edges: the iteration stored under
    the key (which may be [None]), if the key is there. *)
Fixpoint edge_get (key : Z * Z) (d : list ((Z * Z) * option Z)) : option (option Z) :=
  match d with
  | [] => None
  | (k, v) :: d' => if edge_eqb k key then Some v else edge_get key d'
  end.

(** The keys of the dict of injected edges, in insertion order. *)
Definition edge_keys (a : InjectionAttacker) : list (Z * Z) :=
  map fst (_injected_edges a).

(** One recorded edit. *)
Inductive edit : Type :=
| InjectEdge (u v : Z) (it : option Z)
| InjectNode (node : Z) (feat_arg : option Tensor) (rnd : Draw).

(** A sequence of edits, each run whether or not the one before it raised. *)
Fixpoint apply_edits (edits : list edit) (a : InjectionAttacker) : InjectionAttacker :=
  match edits with
  | [] => a
  | InjectEdge u v it :: rest => apply_edits rest (snd (inject_edge u v it a))
  | InjectNode node f rnd :: rest => apply_edits rest (snd (inject_node node f rnd a))
  end.

(** What [inject_edge] and [inject_node] leave alone. *)
Definition kept (a : InjectionAttacker) :=
  (data_cache a, ori_data a, feat a, feat_limits a, feat_budgets a, num_feats a,
   num_budgets a, num_edges_local a, _is_reset a).

(** The messages of two of the errors that [attack] raises. *)
Definition reset_message : string :=
  "Before calling attack, you must reset your attacker. Use `attacker.reset()`.".

Definition both_feat_message : string :=
  "Both `feat_limits` and `feat_budgets` cannot be used simultaneously.".

End InjectionReads.

(** A stand-in for [graphwar.utils.add_edges], and the toy attacker after
    some edits. *)

Module ToyEdits.
Import Py Torch Injection InjectionReads ToyInjection.
Local Open Scope Z_scope.

(** The injected edges are appended, and their reverses too when
    [symmetric] holds. *)
Definition toy_add_edges (edge_index : list (Z * Z)) (injected : option (list Z * list Z))
  (symmetric : bool) : exn + list (Z * Z) :=
  inr (edge_index
       ++ match injected with
          | None => []
          | Some (us, vs) => combine us vs ++ (if symmetric then combine vs us else [])
          end).

(** [toy_injector] after [attack(2)]: the limits are the observed ones. *)
Definition toy_attacked : InjectionAttacker :=
  self (snd (attack (PyInt 2) None None None None None toy_world)).

(** Then node 3 with the features (0, 1), and the edge (3, 0). *)
Definition toy_injected : InjectionAttacker :=
  apply_edits [InjectNode 3 (Some (mkTensor [2%nat] [0; 1]%Q)) (mkDraw [] []);
               InjectEdge 3 0 (Some 0)] toy_attacked.

(** The graph that [data()] returns for it. *)
Definition toy_perturbed : Data :=
  mkData (mkTensor [4%nat; 2%nat] [0; 1 # 2; 3; 1; -1; 2; 0; 1]%Q)
         [(0, 1); (1, 2); (3, 0); (0, 3)].

End ToyEdits.

(** ** GCNConv (greatx/nn/layers/gcn_conv.py) *)

Module GCN.
Import Py Torch.
Local Open Scope py_scope.

(** What the layer takes from torch, torch_geometric, torch_sparse and
    [greatx.functional]; none of it is among the sources.  [size0] is
    [t.size(0)]; [add_self_loops] and [gcn_norm] are the functions of
    torch_geometric with their keyword arguments in the order
    [(edge_index, edge_attr, fill_value, num_nodes)] and
    [(edge_index, edge_weight, num_nodes, improved, add_self_loops)];
    [gcn_norm_sparse] is the same [gcn_norm] called on a [SparseTensor],
    where the source passes [x.size(0)] in the second position. *)
Class Externals : Type := {
  SparseTensor : Type;
  size0 : Tensor -> nat;
  new_full : Tensor -> nat -> Q -> Tensor;
  diag : Tensor -> Tensor;
  add : Tensor -> Tensor -> exn + Tensor;
  mul : Tensor -> Tensor -> exn + Tensor;
  sum_dim1 : Tensor -> exn + Tensor;
  pow_ : Tensor -> Q -> Tensor;
  masked_fill_inf : Tensor -> Q -> Tensor;
  view : Tensor -> list Z -> exn + Tensor;
  add_self_loops :
    Tensor -> option Tensor -> option Q -> option nat -> exn + (Tensor * option Tensor);
  fill_diag : SparseTensor -> Q -> exn + SparseTensor;
  gcn_norm :
    Tensor -> option Tensor -> nat -> bool -> bool -> exn + (Tensor * option Tensor);
  gcn_norm_sparse : SparseTensor -> nat -> bool -> bool -> exn + SparseTensor;
  spmm_edges : Tensor -> Tensor -> option Tensor -> exn + Tensor;
  spmm_sparse : Tensor -> SparseTensor -> option Tensor -> exn + Tensor;
  spmm_dense : Tensor -> Tensor -> option Tensor -> exn + Tensor
}.

Section Layer.

Context {E : Externals}.

(** The three kinds of adjacency that [forward] tells apart:
    [is_edge_index] holds of the first, [isinstance(_, SparseTensor)] of
    the second, and a dense N by N matrix is what is left. *)
Inductive Adj : Type :=
| EdgeIndex (edge_index : Tensor)
| Sparse (adj_t : SparseTensor)
| Dense (adj : Tensor).

(** [dense_gcn_norm(adj, improved, add_self_loops, rate)] *)
Definition dense_gcn_norm (adj : Tensor) (improved add_loops : bool) (rate : Q)
  : exn + Tensor :=
  let fill_value := if improved then 2%Q else 1%Q in
  rbind (if add_loops
         then add adj (diag (new_full adj (size0 adj) fill_value))
         else inr adj) (fun adj =>
  rbind (sum_dim1 adj) (fun deg =>
  let deg_inv_sqrt := pow_ deg rate in
  let deg_inv_sqrt := masked_fill_inf deg_inv_sqrt 0 in
  rbind (view deg_inv_sqrt [1; -1]%Z) (fun norm_src =>
  rbind (view deg_inv_sqrt [-1; 1]%Z) (fun norm_dst =>
  rbind (mul norm_src adj) (fun t => mul t norm_dst))))).

(** [dense_add_self_loops(adj, fill_value)] *)
Definition dense_add_self_loops (adj : Tensor) (fill_value : Q) : exn + Tensor :=
  add adj (diag (new_full adj (size0 adj) fill_value)).

(** The attributes of the layer that [forward] reads; [lin] is the linear
    map, [bias] is [None] when the layer was built without one. *)
Record GCNConv : Type := mkGCNConv {
  in_channels : Z;
  out_channels : Z;
  improved : bool;
  cached : bool;
  add_loops : bool;
  normalize : bool;
  lin : Tensor -> exn + Tensor;
  bias : option Tensor
}.

Definition forward (layer : GCNConv) (x : Tensor) (edge_index : Adj)
  (edge_weight : option Tensor) : exn + Tensor :=
  rbind (lin layer x) (fun x =>
  rbind (if add_loops layer
         then match edge_index with
              | EdgeIndex ei =>
                  rbind (add_self_loops ei None None (Some (size0 x)))
                    (fun r => inr (EdgeIndex (fst r), snd r))
              | Sparse adj_t =>
                  rbind (fill_diag adj_t 1) (fun r => inr (Sparse r, edge_weight))
              | Dense adj =>
                  rbind (dense_add_self_loops adj 1) (fun r => inr (Dense r, edge_weight))
              end
         else inr (edge_index, edge_weight)) (fun looped =>
  rbind (if normalize layer
         then match fst looped with
              | EdgeIndex ei =>
                  rbind (gcn_norm ei (snd looped) (size0 x) (improved layer) false)
                    (fun r => inr (EdgeIndex (fst r), snd r))
              | Sparse adj_t =>
                  rbind (gcn_norm_sparse adj_t (size0 x) (improved layer) false)
                    (fun r => inr (Sparse r, snd looped))
              | Dense adj =>
                  rbind (dense_gcn_norm adj (improved layer) false (-1 # 2))
                    (fun r => inr (Dense r, snd looped))
              end
         else inr looped) (fun normed =>
  rbind (match fst normed with
         | EdgeIndex ei => spmm_edges x ei (snd normed)
         | Sparse adj_t => spmm_sparse x adj_t (snd normed)
         | Dense adj => spmm_dense x adj (snd normed)
         end) (fun out =>
  match bias layer with
  | Some b => add out b
  | None => inr out
  end)))).

(** The layer with another value of [improved]. *)
Definition with_improved (b : bool) (layer : GCNConv) : GCNConv :=
  mkGCNConv (in_channels layer) (out_channels layer) b (cached layer) (add_loops layer)
    (normalize layer) (lin layer) (bias layer).

End Layer.

End GCN.

(** ** GAT (greatx/nn/models/supervised/gat.py) *)

Module GAT.
Local Open Scope Z_scope.

(** The modules that the constructor puts into the [Sequential]. *)
Inductive layer : Type :=
| GATConv (in_channels out_channels heads : Z) (bias concat : bool) (dropout : Q)
| BatchNorm1d (num_features : Z)
| Activation (act : option string)
| Dropout (p : Q).

(** [zip(hids, num_heads, acts)]: as long as the shortest of the three. *)
Fixpoint zip3 (hids num_heads : list Z) (acts : list (option string))
  : list (Z * Z * option string) :=
  match hids, num_heads, acts with
  | hid :: hids', num_head :: num_heads', act :: acts' =>
      (hid, num_head, act) :: zip3 hids' num_heads' acts'
  | _, _, _ => []
  end.

(** The loop of the constructor: the layers of the hidden blocks, and the
    [in_channels] and [head] that the loop leaves. *)
Fixpoint hidden (in_channels head : Z) (blocks : list (Z * Z * option string))
  (dropout : Q) (bias bn : bool) : list layer * Z * Z :=
  match blocks with
  | [] => ([], in_channels, head)
  | (hid, num_head, act) :: rest =>
      let here :=
        [GATConv (in_channels * head) hid num_head bias true dropout]
        ++ (if bn then [BatchNorm1d (hid * num_head)] else [])
        ++ [Activation act; Dropout dropout] in
      let '(later, in_channels', head') := hidden hid num_head rest dropout bias bn in
      (here ++ later, in_channels', head')
  end.

(** The body of [GAT.__init__], lines 62-80: the list given to
    [Sequential], for the lists that reach the body.  The decorator of
    line 57 is applied in [__init__] below. *)
Definition init (in_channels out_channels : Z) (hids num_heads : list Z)
  (acts : list (option string)) (dropout : Q) (bias bn : bool) : list layer :=
  let '(conv, in_channels', head) :=
    hidden in_channels 1 (zip3 hids num_heads acts) dropout bias bn in
  conv ++ [GATConv (in_channels' * head) out_channels 1 bias false dropout].

(** The number of features that a layer puts out when it is given [d]:
    a [GATConv] with [concat] puts out [out_channels * heads]. *)
Definition out_features (d : Z) (l : layer) : Z :=
  match l with
  | GATConv _ out heads _ concat _ => if concat then out * heads else out
  | _ => d
  end.

(** Whether a layer accepts an input of [d] features. *)
Definition accepts (d : Z) (l : layer) : bool :=
  match l with
  | GATConv i _ _ _ _ _ => i =? d
  | BatchNorm1d n => n =? d
  | _ => true
  end.

(** Push [d] features through the layers: the number of features at the
    end, if every layer accepts what it is given. *)
Fixpoint flow (d : Z) (layers : list layer) : option Z :=
  match layers with
  | [] => Some d
  | l :: rest => if accepts d l then flow (out_features d l) rest else None
  end.

(** [GAT.__init__] as it is called.  The [@wrapper] decorator
    ([greatx.utils], not among the sources) sees the arguments first; what
    it hands to the body for the three lists is a parameter. *)
Section Decorated.

Variable wrapper :
  list Z -> list Z -> list (option string) -> list Z * list Z * list (option string).

Definition __init__ (in_channels out_channels : Z) (hids num_heads : list Z)
  (acts : list (option string)) (dropout : Q) (bias bn : bool) : list layer :=
  let '(hids', num_heads', acts') := wrapper hids num_heads acts in
  init in_channels out_channels hids' num_heads' acts' dropout bias bn.

End Decorated.

End GAT.

(** A stand-in for the decorator: the heads and the activations are cut to
    the length of [hids], or stretched to it by repeating their last
    entry. *)

Module ToyGAT.

Definition stretch {A : Type} (d : A) (n : nat) (l : list A) : list A :=
  firstn n (l ++ repeat (List.last l d) n).

Definition toy_wrapper (hids num_heads : list Z) (acts : list (option string))
  : list Z * list Z * list (option string) :=
  (hids, stretch 1%Z (length hids) num_heads, stretch None (length hids) acts).

End ToyGAT.

(** ** Readers of the PRBCD state *)

Module PRBCDReads.
Import Py PRBCD.

(** The search space: the block, its edge index and the random generator. *)
Definition search_space (s : PRBCDAttack) : option (list Z) * option (list (Z * Z)) * nat :=
  (current_block s, block_edge_index s, rng s).

(** [coeffs.update(kwargs)] *)
Definition updated (kw : list (string * pyval)) (m : gmap string pyval) : gmap string pyval :=
  fold_left (fun m kv => <[fst kv := snd kv]> m) kw m.

End PRBCDReads.

Module ToyEpochs.
Import Py Torch PRBCD Toy.
Local Open Scope Z_scope.

(** The toy arguments with another number of epochs and with keyword
    arguments. *)
Definition toy_args_epochs (n : Z) (kw : list (string * pyval)) : Args :=
  mkArgs 0 None (Some (PyInt 1)) true 250000 n 3 (Some (Str "tanh_margin")) None 2000%Q
    true false kw.

(** The object when the epoch loop is about to start. *)
Definition toy_prepared : PRBCDAttack :=
  snd (attack_epochs (C := toy) (toy_args_epochs 0 []) toy_fresh).

(** The edges of a call of [get_flipped_edges] that returned. *)
Definition edges_of (r : (exn + list (Z * Z)) * PRBCDAttack) : list (Z * Z) :=
  match fst r with
  | inr e => e
  | inl _ => []
  end.

End ToyEpochs.

(** ** Facts about the method monad *)

Module PyFacts.
Import Py.

Lemma bind_ok {St A B : Type} (c : M St A) (k : A -> M St B) s a s1 :
  c s = (inr a, s1) -> bind c k s = k a s1.
Proof. intros H. unfold bind. now rewrite H. Qed.

Lemma bind_raises {St A B : Type} (c : M St A) (k : A -> M St B) s e s1 :
  c s = (inl e, s1) -> bind c k s = (inl e, s1).
Proof. intros H. unfold bind. now rewrite H. Qed.

Lemma bind_ok_inv {St A B : Type} (c : M St A) (k : A -> M St B) s b s' :
  bind c k s = (inr b, s') ->
  exists a s1, c s = (inr a, s1) /\ k a s1 = (inr b, s').
Proof.
  unfold bind. destruct (c s) as [[e | a] s1]; intros H.
  - discriminate.
  - now exists a, s1.
Qed.

Lemma bind_run {St A B : Type} (c : M St A) (k : A -> M St B) (s : St) :
  bind c k s = match fst (c s) with
               | inl e => (inl e, snd (c s))
               | inr a => k a (snd (c s))
               end.
Proof. unfold bind. now destruct (c s) as [[e | a] s1]. Qed.

Lemma require_ok_inv {St A : Type} (o : option A) e (s : St) a s' :
  require o e s = (inr a, s') -> o = Some a /\ s' = s.
Proof.
  destruct o as [x |]; unfold require, ret, raise; intros H.
  - now inversion H.
  - discriminate.
Qed.

Lemma py_assert_ok_inv {St : Type} (cond : bool) msg (s s' : St) u :
  py_assert cond msg s = (inr u, s') -> cond = true /\ s' = s.
Proof.
  destruct cond; unfold py_assert, ret, raise; intros H.
  - now inversion H.
  - discriminate.
Qed.

Lemma lift_ok_inv {St A : Type} (r : exn + A) (s s' : St) a :
  lift r s = (inr a, s') -> r = inr a /\ s' = s.
Proof. unfold lift. intros H. now inversion H. Qed.

Lemma int_of_float_floor (q : Q) : (0 <= q)%Q -> int_of_float q = Qfloor q.
Proof.
  destruct q as [n d]. unfold Qle, int_of_float, Qfloor. simpl.
  intros H. apply Z.quot_div_nonneg; lia.
Qed.

Lemma clamped_mean_truncates (m : Q) :
  int_of_float (Qmax m 1) = Z.max 1 (Qfloor m).
Proof.
  rewrite int_of_float_floor.
  - destruct (Q.max_spec m 1) as [[Hlt Heq] | [Hle Heq]]; rewrite Heq.
    + assert (Qfloor m <= Qfloor 1)%Z by (apply Qfloor_resp_le; lra).
      change (Qfloor 1) with 1%Z in *. lia.
    + assert (Qfloor 1 <= Qfloor m)%Z by (apply Qfloor_resp_le; lra).
      change (Qfloor 1) with 1%Z in *. lia.
  - apply Qle_trans with 1%Q; [lra | apply Q.le_max_r].
Qed.

Lemma read_only_ret {St A : Type} (a : A) : read_only (ret (St := St) a).
Proof. now intros s. Qed.

Lemma read_only_raise {St A : Type} (e : exn) : read_only (raise (St := St) (A := A) e).
Proof. now intros s. Qed.

Lemma read_only_lift {St A : Type} (r : exn + A) : read_only (lift (St := St) r).
Proof. now intros s. Qed.

Lemma read_only_gets {St A : Type} (f : St -> A) : read_only (gets f).
Proof. now intros s. Qed.

Lemma read_only_require {St A : Type} (o : option A) (e : exn) :
  read_only (require (St := St) o e).
Proof. now destruct o; intros s. Qed.

Lemma read_only_py_assert {St : Type} (cond : bool) (msg : string) :
  read_only (py_assert (St := St) cond msg).
Proof. now destruct cond; intros s. Qed.

Lemma read_only_bind {St A B : Type} (c : M St A) (k : A -> M St B) :
  read_only c -> (forall a, read_only (k a)) -> read_only (bind c k).
Proof.
  intros Hc Hk s. unfold bind. specialize (Hc s).
  destruct (c s) as [[e | a] s1]; simpl in Hc; subst s1.
  - reflexivity.
  - apply Hk.
Qed.

Ltac read_only_tac :=
  repeat first
    [ apply read_only_ret | apply read_only_raise | apply read_only_lift
    | apply read_only_gets | apply read_only_require | apply read_only_py_assert
    | apply read_only_bind; [| intros ?]
    | match goal with
      | |- read_only (match ?x with _ => _ end) => destruct x
      | |- read_only (if ?c then _ else _) => destruct c
      end ].

Lemma preserves_read_only {St A X : Type} (f : St -> X) (c : M St A) :
  read_only c -> preserves f c.
Proof. intros H s. now rewrite H. Qed.

Lemma preserves_modify {St X : Type} (f : St -> X) (g : St -> St) :
  (forall s, f (g s) = f s) -> preserves f (modify g).
Proof. intros H s. apply H. Qed.

Lemma preserves_bind {St A B X : Type} (f : St -> X) (c : M St A) (k : A -> M St B) :
  preserves f c -> (forall a, preserves f (k a)) -> preserves f (bind c k).
Proof.
  intros Hc Hk s. unfold bind. specialize (Hc s).
  destruct (c s) as [[e | a] s1]; simpl in Hc.
  - exact Hc.
  - rewrite <- Hc. apply Hk.
Qed.

Ltac preserves_tac :=
  repeat first
    [ apply preserves_read_only;
      first [ apply read_only_ret | apply read_only_raise | apply read_only_lift
            | apply read_only_gets | apply read_only_require | apply read_only_py_assert ]
    | apply preserves_modify; intros ?; reflexivity
    | apply preserves_bind; [| intros ?]
    | match goal with
      | |- preserves _ (match ?x with _ => _ end) => destruct x
      | |- preserves _ (if ?c then _ else _) => destruct c
      end ].

Lemma Qltb_true (a b : Q) : Qltb a b = true <-> (a < b)%Q.
Proof.
  unfold Qltb. rewrite negb_true_iff. split.
  - intros H. apply Qnot_le_lt. intros Hle. apply Qle_bool_iff in Hle. congruence.
  - intros H. destruct (Qle_bool b a) eqn:E; [| reflexivity].
    apply Qle_bool_iff in E. lra.
Qed.

(** A step that only reads, in a hypothesis: case on what it inspects and
    conclude that the state is the one it started from. *)
Ltac reads H :=
  repeat match type of H with
         | context [match ?x with _ => _ end] => destruct x
         end;
  unfold ret, raise, lift, py_assert in H;
  repeat match type of H with
         | context [if ?c then _ else _] => destruct c
         end;
  try discriminate;
  injection H as ? <-.

End PyFacts.

(** * InjectionAttacker: the claims *)

Module InjectionProofs.
Import Py Torch Injection ToyInjection PyFacts SpecWords.
Local Open Scope Z_scope.

Lemma on_self_inv {A : Type} (c : M InjectionAttacker A) (w w' : World) (r : exn + A) :
  on_self c w = (r, w') -> exists a', c (self w) = (r, a') /\ w' = mkWorld a' (heap w).
Proof.
  unfold on_self. destruct (c (self w)) as [r0 a']. intros H. inversion H. eauto.
Qed.

(** Step through a successful run: split a bind, then read off what a
    primitive step did. *)
Ltac step_as H a s H1 :=
  apply bind_ok_inv in H as (a & s & H1 & H);
  lazymatch type of H1 with
  | gets _ _ = _ => unfold gets in H1; injection H1 as <- <-
  | get _ = _ => unfold get in H1; injection H1 as <- <-
  | modify _ _ = _ => unfold modify in H1; injection H1 as <- <-
  | store _ _ _ = _ => unfold store, modify in H1; injection H1 as <- <-
  | require _ _ _ = _ => apply require_ok_inv in H1 as [H1 ->]
  | py_assert _ _ _ = _ => apply py_assert_ok_inv in H1 as [H1 ->]
  | lift _ _ = _ => apply lift_ok_inv in H1 as [H1 ->]
  | on_self (modify _) _ = _ =>
      apply on_self_inv in H1 as (? & H1 & ->);
      unfold modify in H1; injection H1 as <- <-
  | _ ?s0 = (_, s) =>
      try (assert (s = s0) as -> by (clear - H1; reads H1; reflexivity))
  end.

Tactic Notation "step" hyp(H) "as" ident(a) ident(s) ident(H1) := step_as H a s H1.

Tactic Notation "step" hyp(H) :=
  let a := fresh "v" in let s := fresh "w" in let H1 := fresh "Hstep" in step_as H a s H1.

(** ** The feature limits (C5) *)

Lemma feat_limits_and_budgets_exclusive (l : limits_arg) (b : Z) (w : World) :
  resolve_feat_limits (Some l) (Some b) w
  = (inl (RuntimeError
       "Both `feat_limits` and `feat_budgets` cannot be used simultaneously."), w).
Proof. reflexivity. Qed.

Lemma unknown_key_is_refused (ref : nat) (d rest : pydict) (k : string) (v : option Q)
  (w : World) :
  heap w !! ref = Some d ->
  dict_remove "max" (dict_remove "min" d) = (k, v) :: rest ->
  fst (resolve_feat_limits (Some (LimitsDict ref)) None w)
  = inl (ValueError ("Unrecognized key " ++ k ++ ".")).
Proof.
  intros Hd Hrest. unfold resolve_feat_limits, unpack_feat_limits, dict_pop.
  unfold bind, gets. simpl. rewrite Hd. simpl. rewrite Hrest. reflexivity.
Qed.

Lemma unset_limits_default_to_observed (w : World) (f : Tensor) (lo hi : Q) :
  feat (self w) = Some f -> tensor_min f = inr lo -> tensor_max f = inr hi ->
  fst (resolve_feat_limits None None w) = inr tt
  /\ feat_limits (self (snd (resolve_feat_limits None None w))) = Some (lo, hi).
Proof.
  intros Hf Hlo Hhi. unfold resolve_feat_limits. simpl.
  unfold bind, gets, lift. simpl. rewrite Hf. simpl. rewrite Hlo, Hhi. simpl.
  split; reflexivity.
Qed.

Lemma feat_budgets_within_num_feats (fl : option limits_arg) (b : Z) (w w' : World) :
  resolve_feat_limits fl (Some b) w = (inr tt, w') ->
  b <= Z.of_nat (num_feats (self w')).
Proof.
  unfold resolve_feat_limits. intros H.
  destruct (is_not_None fl && is_not_None (Some b)) eqn:Hboth; [discriminate |].
  destruct fl as [l |]; [discriminate |].
  step H as limits w0 Hunpack. destruct limits as [mn mx].
  step H as ft w1 Hft. step H as u1 w1 Hsome. step H as lo w1 Hlo. step H as hi w1 Hhi.
  step H as n w1 Hn. step H as u2 w1 Hle.
  repeat (step H).
  apply on_self_inv in H as (? & H & ->). unfold modify in H. injection H as <-.
  simpl. now apply Z.leb_le.
Qed.

Lemma supplied_limits_are_replaced (w : World) (f : Tensor) (lo hi : Q) :
  feat (self w) = Some f ->
  exists w', resolve_feat_limits (Some (LimitsTuple [Some lo; Some hi])) None w = (inr tt, w')
             /\ feat_limits (self w') = Some (0%Q, 1%Q).
Proof.
  intros Hf. eexists. split.
  - unfold resolve_feat_limits. simpl. unfold bind at 1. simpl.
    unfold bind at 1. unfold gets at 1. rewrite Hf. simpl.
    reflexivity.
  - reflexivity.
Qed.

(** C5: the claim says that a bound supplied through [feat_limits] becomes
    the active bound.  On the code it does not: with
    [feat_limits=(2, 5)] (and with the dict [{'max': 5, 'min': 2}]) the
    call succeeds and leaves [self.feat_limits = (0., 1.)], because the
    [else] of [if min_limits is None and feat is not None] overwrites every
    supplied bound with the constants 0 and 1. *)
Theorem attack_discards_supplied_feat_limits :
  let by_tuple := attack (PyInt 2) None None None
                    (Some (LimitsTuple [Some 2%Q; Some 5%Q])) None toy_world in
  let by_dict := attack (PyInt 2) None None None (Some (LimitsDict 7)) None toy_world in
  fst by_tuple = inr tt
  /\ feat_limits (self (snd by_tuple)) = Some (0%Q, 1%Q)
  /\ feat_limits (self (snd by_tuple)) <> Some (2%Q, 5%Q)
  /\ fst by_dict = inr tt
  /\ feat_limits (self (snd by_dict)) = Some (0%Q, 1%Q).
Proof.
  repeat split.
  vm_compute. discriminate.
Qed.

(** ** The edge count of an injected node (C6) *)

Lemma resolve_num_edges_local_reads g l : read_only (resolve_num_edges_local g l).
Proof. unfold resolve_num_edges_local. read_only_tac. Qed.

(** C6, as the claim states it, fails: with degrees 2, 3 and 3 the mean
    degree is 8/3, the code resolves the default edge count to
    [int(8/3) = 2], and [round(8/3)] clamped to at least 1 is 3. *)
Theorem default_edge_count_is_not_rounded :
  tensor_mean (_degree toy_injector) = Some (8 # 3)%Q
  /\ fst (resolve_num_edges_local None None toy_injector) = inr 2
  /\ spec_default_edge_count (8 # 3) = 3
  /\ fst (resolve_num_edges_local None None toy_injector)
     <> inr (spec_default_edge_count (8 # 3)).
Proof. repeat split. vm_compute. discriminate. Qed.

(** C6, amended: both counts given is an error; a local count alone is
    used as it is; a global count alone is integer-divided by the number of
    targets (at least one target), and a zero quotient is a [ValueError]
    (100 with 25 targets gives 4); with neither, the count is the mean
    degree clamped to at least 1 and then truncated to an integer, which is
    the floor of the mean degree, or 1 when that is smaller.  The state is
    left as it was in every case. *)
Theorem edge_count_resolution (a : InjectionAttacker) :
  (forall g l,
      resolve_num_edges_local (Some g) (Some l) a
      = (inl (RuntimeError
           "Both `num_edges_local` and `num_edges_global` cannot be used simultaneously."), a))
  /\ (forall l, resolve_num_edges_local None (Some l) a = (inr l, a))
  /\ (forall g ts, targets a = Some ts -> ts <> [] ->
        resolve_num_edges_local (Some g) None a
        = if g / Z.of_nat (length ts) =? 0
          then (inl (ValueError
                  "Too less edges allowed for injected nodes. Maybe you could use the argument `num_edges_local` instead."), a)
          else (inr (g / Z.of_nat (length ts)), a))
  /\ (forall ts, targets a = Some ts -> length ts = 25%nat ->
        resolve_num_edges_local (Some 100) None a = (inr 4, a))
  /\ (forall m, tensor_mean (_degree a) = Some m ->
        resolve_num_edges_local None None a = (inr (int_of_float (Qmax m 1)), a)
        /\ int_of_float (Qmax m 1) = Z.max 1 (Qfloor m)).
Proof.
  assert (Hglobal : forall g ts, targets a = Some ts -> ts <> [] ->
        resolve_num_edges_local (Some g) None a
        = if g / Z.of_nat (length ts) =? 0
          then (inl (ValueError
                  "Too less edges allowed for injected nodes. Maybe you could use the argument `num_edges_local` instead."), a)
          else (inr (g / Z.of_nat (length ts)), a)).
  { intros g ts Hts Hne.
    unfold resolve_num_edges_local, bind, gets, require, ret, raise. simpl.
    rewrite Hts.
    destruct (Z.eqb_spec (Z.of_nat (length ts)) 0) as [H0 | _].
    - destruct ts; [congruence | simpl in H0; lia].
    - destruct (g / Z.of_nat (length ts) =? 0); reflexivity. }
  repeat split.
  - exact Hglobal.
  - intros ts Hts Hlen. rewrite (Hglobal 100 ts Hts).
    + rewrite Hlen. reflexivity.
    + destruct ts; [discriminate | congruence].
  - unfold resolve_num_edges_local. simpl.
    unfold bind, ret, gets, lift, default_num_edges_local. now rewrite H.
  - apply clamped_mean_truncates.
Qed.

Lemma edge_count_resolution_witness :
  resolve_num_edges_local (Some 100) None (set_targets (Some (repeat 0 25)) toy_injector)
  = (inr 4, set_targets (Some (repeat 0 25)) toy_injector).
Proof.
  apply (proj1 (proj2 (proj2 (proj2 (edge_count_resolution _)))) (repeat 0 25)); reflexivity.
Defined.

(** The resolved count is what [attack] stores: the spec's example, run
    through the whole method. *)
Example attack_100_edges_25_targets :
  let w := snd (attack (PyInt 2) (Some (TargetsIndices (repeat 0 25))) (Some 100) None
                  None None toy_world) in
  num_edges_local (self w) = Some 4 /\ num_edges_global (self w) = Some 100.
Proof. split; reflexivity. Qed.

(** ** The accessors of a fresh attacker (C8) *)

(** C8: on an attacker that was just reset, [injected_nodes()],
    [injected_edges()] and [injected_feats()] return [None], but [data()]
    does not return a graph: it passes the [None] of [injected_feats()] to
    [torch.cat] and raises [TypeError], whatever [add_edges] would do. *)
Theorem fresh_data_raises
  (add_edges : list (Z * Z) -> option (list Z * list Z) -> bool -> exn + list (Z * Z))
  (a : InjectionAttacker) (symmetric : bool) :
  let fresh := snd (reset a) in
  injected_nodes fresh = None
  /\ injected_edges fresh = None
  /\ injected_feats fresh = inr None
  /\ data add_edges symmetric fresh
     = (inl (TypeError "expected Tensor as element of the list, but got NoneType"), fresh).
Proof. repeat split; reflexivity. Qed.

(** ** The generated flip vector (C9) *)

Lemma firstn_has_nonzero (b : nat) (l : list nat) :
  NoDup l -> (2 <= b)%nat -> (2 <= length l)%nat ->
  forallb (fun i => (i <? 1)%nat) (firstn b l) = false.
Proof.
  intros Hnd Hb Hl.
  destruct l as [| i [| j l']]; simpl in Hl; try lia.
  destruct b as [| [| b']]; try lia.
  simpl.
  destruct (Nat.ltb_spec i 1) as [Hi |]; [| reflexivity].
  destruct (Nat.ltb_spec j 1) as [Hj |]; [| reflexivity].
  exfalso. apply NoDup_cons in Hnd as [Hnotin _].
  apply Hnotin, elem_of_cons. left. lia.
Qed.

(** With a flip budget of two or more, every outcome of [randperm] selects
    an index other than 0, and the generation raises. *)
Lemma flip_budget_of_two_raises (a : InjectionAttacker) (f : Tensor) (b : Z) (node : Z)
  (rnd : Draw) :
  feat_budgets a = Some b -> feat a = Some f ->
  NoDup (randperm rnd) -> 2 <= b -> (2 <= length (randperm rnd))%nat ->
  inject_node node None rnd a = (inl (IndexError "index out of range in self"), a).
Proof.
  intros Hb Hf Hnd H2 Hlen.
  unfold inject_node, bind at 1, get. rewrite Hb, Hf. unfold bind, require, ret, lift.
  unfold index_put, new_zeros, shape.
  unfold slice_to. destruct (Z.ltb_spec b 0) as [? | _]; [lia |].
  rewrite firstn_has_nonzero; [reflexivity | assumption | lia | assumption].
Qed.

(** C9: the generated vector is not a vector with [feat_budgets] ones.  The
    zeros have shape (1, num_feats) and [feat[idx] = 1.0] indexes the first
    dimension, of size 1: with two features and a budget of 2 the call
    raises [IndexError]; with a budget of 1 it raises when the permutation
    starts with 1, and when it starts with 0 the whole row is set, that is
    two ones under a budget of one. *)
Theorem generated_flip_vector_overruns :
  inject_node 5 None (mkDraw [1; 0]%nat []) (with_feat_budgets 2)
    = (inl (IndexError "index out of range in self"), with_feat_budgets 2)
  /\ inject_node 5 None (mkDraw [1; 0]%nat []) (with_feat_budgets 1)
    = (inl (IndexError "index out of range in self"), with_feat_budgets 1)
  /\ _injected_feats (snd (inject_node 5 None (mkDraw [0; 1]%nat []) (with_feat_budgets 1)))
    = [mkTensor [1; 2]%nat [1; 1]%Q].
Proof. vm_compute. repeat split. Qed.

(** ** The caller's dict (C10) *)

Lemma unpack_dict_ok (ref : nat) (w w' : World) (r : option Q * option Q) :
  unpack_feat_limits (Some (LimitsDict ref)) w = (inr r, w') ->
  exists d, heap w !! ref = Some d
    /\ dict_remove "max" (dict_remove "min" d) = []
    /\ self w' = self w
    /\ heap w' = <[ref := []]> (<[ref := dict_remove "min" d]> (heap w)).
Proof.
  unfold unpack_feat_limits, dict_pop. intros H.
  step H. step H. exists v. split; [assumption |].
  step H. step H. simpl in H.
  destruct (dict_remove "max" (dict_remove "min" v)) as [| [k x] d2]; [| discriminate].
  unfold ret in H. injection H as <- <-. simpl. auto.
Qed.

Lemma unpack_empty_dict (ref : nat) (w : World) :
  heap w !! ref = Some [] ->
  unpack_feat_limits (Some (LimitsDict ref)) w
  = (inr (None, None), mkWorld (self w) (<[ref := []]> (<[ref := []]> (heap w)))).
Proof.
  intros H. unfold unpack_feat_limits.
  unfold bind, gets. simpl. rewrite H. reflexivity.
Qed.

Lemma resolve_feat_limits_dict_ok (ref : nat) (fb : option Z) (w w' : World) :
  resolve_feat_limits (Some (LimitsDict ref)) fb w = (inr tt, w') ->
  heap w' !! ref = Some [] /\ feat (self w') = feat (self w).
Proof.
  unfold resolve_feat_limits. intros H.
  destruct (is_not_None (Some (LimitsDict ref)) && is_not_None fb); [discriminate |].
  step H as limits w0 Hunpack.
  apply unpack_dict_ok in Hunpack as (d & Hd & Hrest & Hself & Hheap).
  destruct limits as [mn mx].
  repeat (step H).
  apply on_self_inv in H as (? & H & ->). unfold modify in H. injection H as <-.
  simpl. rewrite Hheap, Hself. split; [apply lookup_insert_eq | reflexivity].
Qed.

Lemma resolve_feat_limits_empty_dict (ref : nat) (fb : option Z) (w w' : World) :
  heap w !! ref = Some [] ->
  resolve_feat_limits (Some (LimitsDict ref)) fb w = (inr tt, w') ->
  exists f lo hi,
    feat (self w) = Some f /\ tensor_min f = inr lo /\ tensor_max f = inr hi
    /\ feat_limits (self w') = Some (lo, hi).
Proof.
  intros Hempty. unfold resolve_feat_limits. intros H.
  destruct (is_not_None (Some (LimitsDict ref)) && is_not_None fb); [discriminate |].
  step H as limits w0 Hunpack.
  rewrite (unpack_empty_dict _ _ Hempty) in Hunpack. injection Hunpack as <- <-.
  step H as ft w1 Hft. step H as u w1 Hsome. simpl in Hsome.
  destruct (feat (self w)) as [f |] eqn:Hf; [| discriminate].
  exists f.
  step H as lo w1 Hlo.
  step H as hi w1 Hhi.
  exists lo, hi.
  repeat (step H).
  apply on_self_inv in H as (? & H & ->). unfold modify in H. injection H as <-.
  simpl. auto.
Qed.

(** A call of [attack] that returns has run the resolution of the feature
    limits on the caller's heap as it was, and nothing after it writes to
    the heap. *)
Lemma attack_ok_inv nb tg g l fl fb (w w' : World) :
  attack nb tg g l fl fb w = (inr tt, w') ->
  exists w1 w2,
    heap w1 = heap w /\ feat (self w1) = feat (self w)
    /\ resolve_feat_limits fl fb w1 = (inr tt, w2)
    /\ w' = mkWorld (set__is_reset false (self w2)) (heap w2).
Proof.
  unfold attack. intros H. step H as a w0 Ha.
  destruct (negb _); [discriminate |].
  destruct (negb _); [discriminate |].
  step H as nb' w0 Hnb.
  step H as u w0 Htargets.
  step H as nel w0 Hnel. apply on_self_inv in Hnel as (a1 & Hnel & ->).
  pose proof (resolve_num_edges_local_reads g l
                (set_targets (Some (resolve_targets tg (num_nodes (self w)))) (self w))) as Hro.
  simpl in Hnel. rewrite Hnel in Hro. simpl in Hro. subst a1.
  step H. step H. step H.
  step H as u w2 Hlimits.
  apply on_self_inv in H as (? & H & ->). unfold modify in H. injection H as <-.
  destruct u. eexists _, w2. repeat apply conj; cycle 2; [exact Hlimits | reflexivity ..].
Qed.

(** C10: a call of [attack] with [feat_limits] given as a dict that returns
    leaves the caller's dict empty; a second call (after [reset()]) with the
    same dict object then finds neither key, so that both bounds are the
    observed minimum and maximum of the feature matrix. *)
Theorem dict_feat_limits_are_consumed nb tg g l fb (ref : nat) (w w' : World) :
  attack nb tg g l (Some (LimitsDict ref)) fb w = (inr tt, w') ->
  heap w' !! ref = Some []
  /\ forall nb2 tg2 g2 l2 fb2,
       let again := mkWorld (snd (reset (self w'))) (heap w') in
       fst (unpack_feat_limits (Some (LimitsDict ref)) again) = inr (None, None)
       /\ forall w2,
            attack nb2 tg2 g2 l2 (Some (LimitsDict ref)) fb2 again = (inr tt, w2) ->
            exists f lo hi,
              feat (self w) = Some f /\ tensor_min f = inr lo /\ tensor_max f = inr hi
              /\ feat_limits (self w2) = Some (lo, hi)
              /\ heap w2 !! ref = Some [].
Proof.
  intros H. apply attack_ok_inv in H as (w1 & w2 & Hheap & Hfeat & Hlimits & ->).
  apply resolve_feat_limits_dict_ok in Hlimits as [Hempty Hfeat2].
  split; [exact Hempty |].
  intros nb2 tg2 g2 l2 fb2 again. split.
  - subst again. now rewrite unpack_empty_dict.
  - intros w3 H. apply attack_ok_inv in H as (w4 & w5 & Hheap4 & Hfeat4 & Hlimits4 & ->).
    assert (Hempty4 : heap w4 !! ref = Some []) by (rewrite Hheap4; exact Hempty).
    destruct (resolve_feat_limits_dict_ok _ _ _ _ Hlimits4) as [Hempty5 _].
    destruct (resolve_feat_limits_empty_dict _ _ _ _ Hempty4 Hlimits4)
      as (f & lo & hi & Hf & Hlo & Hhi & Hfl).
    exists f, lo, hi. repeat split; try assumption.
    rewrite <- Hfeat, <- Hfeat2, <- Hf, Hfeat4. reflexivity.
Qed.

Lemma dict_feat_limits_are_consumed_witness :
  heap (snd (attack (PyInt 2) None None None (Some (LimitsDict 7)) None toy_world)) !! 7%nat
  = Some [].
Proof.
  apply (dict_feat_limits_are_consumed (PyInt 2) None None None None 7 toy_world
           (snd (attack (PyInt 2) None None None (Some (LimitsDict 7)) None toy_world))).
  vm_compute. reflexivity.
Defined.

(** The two calls in a row on the toy world: the first resolves the limits
    to the constants, the second to the observed range of the features. *)
Example same_dict_twice :
  let first := snd (attack (PyInt 2) None None None (Some (LimitsDict 7)) None toy_world) in
  let again := mkWorld (snd (reset (self first))) (heap first) in
  let second := snd (attack (PyInt 2) None None None (Some (LimitsDict 7)) None again) in
  feat_limits (self first) = Some (0%Q, 1%Q)
  /\ feat_limits (self second) = Some ((-1)%Q, 3%Q).
Proof. vm_compute. split; reflexivity. Qed.

End InjectionProofs.

(** * The projection: what holds for every returned shift *)

Module ProjectionProofs.
Import Py Torch PRBCD PyFacts.
Local Open Scope Q_scope.


Lemma clamp_of_unit (x : Q) : 0 <= x <= 1 -> clamp 0 1 x == x.
Proof.
  intros Hx. unfold clamp.
  destruct (Q.max_spec x 0) as [[? Hmax] | [? Hmax]];
    destruct (Q.min_spec (Qmax x 0) 1) as [[? Hmin] | [? Hmin]]; lra.
Qed.









Lemma fold_left_Qmax_ge (l : list Q) (acc : Q) :
  acc <= fold_left Qmax l acc /\ Forall (fun x => x <= fold_left Qmax l acc) l.
Proof.
  revert acc. induction l as [| x l IH]; intros acc; simpl.
  - split; [lra | constructor].
  - destruct (IH (Qmax acc x)) as [H1 H2].
    pose proof (Q.le_max_l acc x). pose proof (Q.le_max_r acc x).
    split; [lra |]. constructor; [lra | exact H2].
Qed.

Lemma fold_left_Qmin_le (l : list Q) (acc : Q) :
  fold_left Qmin l acc <= acc /\ Forall (fun x => fold_left Qmin l acc <= x) l.
Proof.
  revert acc. induction l as [| x l IH]; intros acc; simpl.
  - split; [lra | constructor].
  - destruct (IH (Qmin acc x)) as [H1 H2].
    pose proof (Q.le_min_l acc x). pose proof (Q.le_min_r acc x).
    split; [lra |]. constructor; [lra | exact H2].
Qed.







(** A vector that is feasible already is returned as it is, whatever the
    bisection would return. *)
Lemma project_feasible (max_iter : nat) (pick : Q -> Q -> Q) (num_budgets : Z)
  (values : list Q) (eps : Q) :
  Forall (fun x => 0 <= x <= 1) values ->
  Qsum values <= inject_Z num_budgets ->
  Forall2 Qeq (project max_iter pick num_budgets values eps) values.
Proof.
  intros Hunit Hsum.
  assert (Hid : Forall2 Qeq (shift_clip values 0) values).
  { unfold shift_clip. clear Hsum. induction Hunit as [| x w Hx _ IH]; simpl; constructor.
    - rewrite clamp_of_unit; lra.
    - exact IH. }
  assert (Hmass : shifted_mass values 0 == Qsum values).
  { unfold shifted_mass. clear - Hid. induction Hid as [| a b l l' Hab _ IH]; simpl.
    - reflexivity.
    - rewrite Hab, IH. reflexivity. }
  unfold project.
  destruct (Qle_bool (shifted_mass values 0) (inject_Z num_budgets)) eqn:E; [exact Hid |].
  exfalso. assert (Hc : Qle_bool (shifted_mass values 0) (inject_Z num_budgets) = true).
  { apply Qle_bool_iff. lra. }
  congruence.
Qed.




End ProjectionProofs.

(** * PRBCDAttack: the claims *)

Module PRBCDProofs.
Import Py Torch PRBCD PyFacts SpecWords.
Local Open Scope Z_scope.

Section WithCollaborators.

Context {C : Collaborators}.

Lemma coeff_reads (key : string) : read_only (coeff key).
Proof. unfold coeff. read_only_tac. Qed.

Lemma coeff_run (key : string) (s : PRBCDAttack) :
  coeff key s = (match coeffs (base s) !! key with
                 | Some v => inr v
                 | None => inl (KeyError key)
                 end, s).
Proof. unfold coeff, bind, gets, require. simpl. now destruct (coeffs (base s) !! key). Qed.

Lemma call_metric_reads p l : read_only (call_metric p l).
Proof. unfold call_metric. read_only_tac. Qed.

Lemma epoch_metric_reads nb : read_only (epoch_metric nb).
Proof. unfold epoch_metric. read_only_tac. Qed.

Lemma step_and_project_keeps_best e g nb : preserves best_state (step_and_project e g nb).
Proof.
  unfold step_and_project. preserves_tac; try apply preserves_read_only, coeff_reads.
Qed.

Lemma install_block_keeps_best r : preserves best_state (install_block r).
Proof. unfold install_block. preserves_tac. Qed.

Lemma retrieve_best_keeps_best : preserves best_state retrieve_best.
Proof. unfold retrieve_best. preserves_tac. Qed.

Lemma resample_or_retrieve_keeps_best e nb : preserves best_state (resample_or_retrieve e nb).
Proof.
  unfold resample_or_retrieve. preserves_tac.
Qed.


Lemma gt_ext_le (m : Q) (b : ext) : gt_ext m b = true -> ext_le b (Fin m).
Proof.
  destruct b as [| q]; simpl; [trivial |]. intros H. apply Qltb_true in H. lra.
Qed.

Lemma ext_le_refl (a : ext) : ext_le a a.
Proof. destruct a; simpl; [trivial | lra]. Qed.

Lemma ext_le_trans (a b c : ext) : ext_le a b -> ext_le b c -> ext_le a c.
Proof. destruct a, b, c; simpl; try tauto. lra. Qed.

(** What [save_best] does: nothing unless the metric is strictly greater;
    then the best metric is the new metric, and, when the block exists,
    the other three attributes are copies of the current block. *)
Lemma save_best_spec (m : Q) (s : PRBCDAttack) :
  (gt_ext m (best_metric s) = false -> save_best m s = (inr tt, s))
  /\ (gt_ext m (best_metric s) = true ->
        best_metric (snd (save_best m s)) = Fin m
        /\ (forall b e w,
              current_block s = Some b -> block_edge_index s = Some e ->
              block_edge_weight s = Some w ->
              save_best m s
              = (inr tt, set_best_pert_edge_weight (Some w)
                           (set_best_edge_index (Some e)
                              (set_best_block (Some b) (set_best_metric (Fin m) s)))))).
Proof.
  unfold save_best. split; intros Hgt.
  - unfold bind, gets. simpl. now rewrite Hgt.
  - split.
    + unfold bind, gets, modify, require. cbn. rewrite Hgt.
      destruct (current_block s); cbn; [| reflexivity].
      destruct (block_edge_index s); cbn; [| reflexivity].
      destruct (block_edge_weight s); reflexivity.
    + intros b e w Hb He Hw. unfold bind, gets, modify, require. cbn.
      rewrite Hgt, Hb. cbn. rewrite He. cbn. rewrite Hw. reflexivity.
Qed.

Lemma save_best_keeps_block (m : Q) :
  preserves (fun s => (current_block s, block_edge_index s, block_edge_weight s, rng s))
    (save_best m).
Proof. unfold save_best. preserves_tac. Qed.

Lemma save_best_grows (m : Q) (s : PRBCDAttack) :
  ext_le (best_metric s) (best_metric (snd (save_best m s))).
Proof.
  destruct (gt_ext m (best_metric s)) eqn:Hgt.
  - destruct (save_best_spec m s) as [_ H]. destruct (H Hgt) as [-> _].
    now apply gt_ext_le.
  - destruct (save_best_spec m s) as [H _]. rewrite (H Hgt). apply ext_le_refl.
Qed.

(** The run of [update], laid out on the state [s1] that the gradient step
    and the projection leave. *)
Lemma update_run (epoch : Z) (gradient : list Q) (nb : Z) (s : PRBCDAttack) :
  update epoch gradient nb s =
  let s1 := snd (step_and_project epoch gradient nb s) in
  match fst (step_and_project epoch gradient nb s) with
  | inl e => (inl e, s1)
  | inr sc =>
      match coeffs (base s1) !! "with_early_stopping"%string with
      | None => (inl (KeyError "with_early_stopping"), s1)
      | Some v =>
          if negb (truthy v) then (inr sc, s1)
          else
            match fst (epoch_metric nb s1) with
            | inl e => (inl e, s1)
            | inr m =>
                let s2 := snd (save_best m s1) in
                match fst (save_best m s1) with
                | inl e => (inl e, s2)
                | inr _ =>
                    let s3 := snd (resample_or_retrieve epoch nb s2) in
                    match fst (resample_or_retrieve epoch nb s2) with
                    | inl e => (inl e, s3)
                    | inr _ => (inr (sc ++ [("metric"%string, m)]), s3)
                    end
                end
            end
      end
  end.
Proof.
  cbn zeta. unfold update. rewrite bind_run.
  destruct (step_and_project epoch gradient nb s) as [[e | sc] s1]; simpl; [reflexivity |].
  rewrite bind_run, coeff_run. simpl.
  destruct (coeffs (base s1) !! "with_early_stopping"%string) as [v |]; simpl; [| reflexivity].
  destruct (negb (truthy v)); [reflexivity |].
  rewrite bind_run. pose proof (epoch_metric_reads nb s1) as Hro.
  destruct (epoch_metric nb s1) as [[e | m] s1']; simpl in *; subst s1'; [reflexivity |].
  rewrite bind_run.
  destruct (save_best m s1) as [[e | []] s2]; simpl; [reflexivity |].
  rewrite bind_run.
  destruct (resample_or_retrieve epoch nb s2) as [[e | []] s3]; reflexivity.
Qed.


Lemma best_metric_of_best_state (s s' : PRBCDAttack) :
  best_state s' = best_state s -> best_metric s' = best_metric s.
Proof. unfold best_state. congruence. Qed.

(** The best state after [update]: the one [save_best] leaves when the
    epoch gets as far as its metric, the old one otherwise. *)
Lemma update_best (epoch : Z) (gradient : list Q) (nb : Z) (s : PRBCDAttack) :
  let s1 := snd (step_and_project epoch gradient nb s) in
  best_state (snd (update epoch gradient nb s)) =
  match fst (step_and_project epoch gradient nb s),
        coeffs (base s1) !! "with_early_stopping"%string,
        fst (epoch_metric nb s1) with
  | inr _, Some v, inr m => if truthy v then best_state (snd (save_best m s1)) else best_state s
  | _, _, _ => best_state s
  end.
Proof.
  cbn zeta. rewrite update_run. cbn zeta.
  pose proof (step_and_project_keeps_best epoch gradient nb s) as H1.
  set (s1 := snd (step_and_project epoch gradient nb s)) in *.
  destruct (fst (step_and_project epoch gradient nb s)) as [e | sc]; [exact H1 |].
  destruct (coeffs (base s1) !! "with_early_stopping"%string) as [v |]; [| exact H1].
  destruct (truthy v); simpl.
  2: { destruct (fst (epoch_metric nb s1)); exact H1. }
  destruct (fst (epoch_metric nb s1)) as [e | m]; [exact H1 |].
  pose proof (resample_or_retrieve_keeps_best epoch nb (snd (save_best m s1))) as H3.
  destruct (fst (save_best m s1)); [reflexivity |].
  destruct (fst (resample_or_retrieve epoch nb (snd (save_best m s1)))); exact H3.
Qed.

Lemma grows_bind {A B : Type} (c : M PRBCDAttack A) (k : A -> M PRBCDAttack B) :
  grows c -> (forall a, grows (k a)) -> grows (bind c k).
Proof.
  intros Hc Hk s. unfold bind. specialize (Hc s).
  destruct (c s) as [[e | a] s1]; simpl in Hc; [exact Hc |].
  eapply ext_le_trans; [exact Hc | apply Hk].
Qed.

Lemma grows_preserves {A : Type} (c : M PRBCDAttack A) :
  preserves best_state c -> grows c.
Proof.
  intros H s. rewrite (best_metric_of_best_state _ _ (H s)). apply ext_le_refl.
Qed.

Lemma update_grows epoch gradient nb : grows (update epoch gradient nb).
Proof.
  intros s. pose proof (update_best epoch gradient nb s) as Hbest. cbn zeta in Hbest.
  pose proof (step_and_project_keeps_best epoch gradient nb s) as H1.
  set (s1 := snd (step_and_project epoch gradient nb s)) in *.
  assert (Hm1 : best_metric s1 = best_metric s) by now apply best_metric_of_best_state.
  assert (Hcases : best_state (snd (update epoch gradient nb s)) = best_state s1
                   \/ exists m, best_state (snd (update epoch gradient nb s))
                                = best_state (snd (save_best m s1))).
  { rewrite Hbest.
    destruct (fst (step_and_project epoch gradient nb s)); [now left |].
    destruct (coeffs (base s1) !! _) as [v |]; [| now left].
    destruct (fst (epoch_metric nb s1)) as [e | m]; [now left |].
    destruct (truthy v); [right; now exists m | now left]. }
  rewrite <- Hm1.
  destruct Hcases as [H | [m H]]; rewrite (best_metric_of_best_state _ _ H).
  - apply ext_le_refl.
  - apply save_best_grows.
Qed.

(** Over the epochs the best metric never falls. *)
Lemma epoch_loop_grows steps x vl vn nb : grows (epoch_loop steps x vl vn nb).
Proof.
  induction steps as [| step steps IH]; simpl.
  - apply grows_preserves, preserves_read_only, read_only_ret.
  - apply grows_bind; [apply grows_preserves, preserves_read_only, read_only_gets | intros s0].
    apply grows_bind; [apply grows_preserves, preserves_read_only, read_only_lift | intros lg].
    apply grows_bind; [apply update_grows | intros sc].
    apply grows_bind; [| intros _; exact IH].
    apply grows_preserves. unfold _append_statistics. preserves_tac.
Qed.

(** C4: [update] writes the best state only when the metric of the epoch
    is strictly greater than the best metric: with a metric that is not
    greater all four attributes are what they were; a change of any of
    them comes with a strictly greater metric, which is then the best
    metric; on a strictly greater metric the four attributes are the metric
    and the block of this epoch; and the best metric never falls, in one
    call and over the epoch loop. *)
Theorem best_state_moves_only_on_strict_improvement
  (epoch : Z) (gradient : list Q) (nb : Z) (s : PRBCDAttack) :
  let s1 := snd (step_and_project epoch gradient nb s) in
  let s' := snd (update epoch gradient nb s) in
  (forall m, fst (epoch_metric nb s1) = inr m -> gt_ext m (best_metric s) = false ->
             best_state s' = best_state s)
  /\ (best_state s' <> best_state s ->
      exists m, fst (epoch_metric nb s1) = inr m /\ gt_ext m (best_metric s) = true
                /\ best_metric s' = Fin m)
  /\ (forall sc v m b ei w,
        fst (step_and_project epoch gradient nb s) = inr sc ->
        coeffs (base s1) !! "with_early_stopping"%string = Some v -> truthy v = true ->
        fst (epoch_metric nb s1) = inr m -> gt_ext m (best_metric s) = true ->
        current_block s1 = Some b -> block_edge_index s1 = Some ei ->
        block_edge_weight s1 = Some w ->
        best_state s' = (Fin m, Some b, Some ei, Some w))
  /\ ext_le (best_metric s) (best_metric s')
  /\ (forall steps x vl vn,
        ext_le (best_metric s) (best_metric (snd (epoch_loop steps x vl vn nb s)))).
Proof.
  cbn zeta.
  pose proof (update_best epoch gradient nb s) as Hbest. cbn zeta in Hbest.
  pose proof (step_and_project_keeps_best epoch gradient nb s) as H1.
  set (s1 := snd (step_and_project epoch gradient nb s)) in *.
  set (s' := snd (update epoch gradient nb s)) in *.
  assert (Hm1 : best_metric s1 = best_metric s) by now apply best_metric_of_best_state.
  split; [| split; [| split; [| split]]].
  - intros m Hm Hgt. rewrite Hbest, Hm.
    destruct (fst (step_and_project epoch gradient nb s)); [reflexivity |].
    destruct (coeffs (base s1) !! _) as [v |]; [| reflexivity].
    destruct (truthy v); [| reflexivity].
    destruct (save_best_spec m s1) as [Hno _]. rewrite Hno by now rewrite Hm1. exact H1.
  - intros Hne. rewrite Hbest in Hne.
    destruct (fst (step_and_project epoch gradient nb s)); [tauto |].
    destruct (coeffs (base s1) !! _) as [v |]; [| tauto].
    destruct (fst (epoch_metric nb s1)) as [e | m]; [tauto |].
    destruct (truthy v); [| tauto].
    exists m. destruct (save_best_spec m s1) as [Hno Hyes]. rewrite Hm1 in *.
    destruct (gt_ext m (best_metric s)) eqn:Hgt.
    + repeat split. rewrite (best_metric_of_best_state _ _ Hbest). now apply Hyes.
    + exfalso. apply Hne. rewrite (Hno eq_refl). exact H1.
  - intros sc v m b ei w Hsc Hv Ht Hm Hgt Hb Hei Hw.
    rewrite Hbest, Hsc, Hv, Hm, Ht.
    destruct (save_best_spec m s1) as [_ Hyes]. rewrite Hm1 in Hyes.
    destruct (Hyes Hgt) as [_ Hall]. rewrite (Hall b ei w Hb Hei Hw). reflexivity.
  - apply update_grows.
  - intros steps x vl vn. apply epoch_loop_grows.
Qed.


(** ** The resampling schedule (C3) *)

Lemma retrieve_best_ok (s s' : PRBCDAttack) (u : unit) :
  retrieve_best s = (inr u, s') ->
  exists b ei w,
    best_block s = Some b /\ best_edge_index s = Some ei /\ best_pert_edge_weight s = Some w
    /\ s' = set_block_edge_weight (Some w)
              (set_block_edge_index (Some ei) (set_current_block (Some b) s)).
Proof.
  unfold retrieve_best, bind, gets, require, modify, ret, raise. cbn.
  destruct (best_block s) as [b |]; cbn; [| discriminate].
  destruct (best_edge_index s) as [ei |]; cbn; [| discriminate].
  destruct (best_pert_edge_weight s) as [w |]; cbn; [| discriminate].
  intros H. injection H as <-. now exists b, ei, w.
Qed.

Lemma resample_or_retrieve_ok (epoch nb : Z) (s s' : PRBCDAttack) (u : unit) :
  resample_or_retrieve epoch nb s = (inr u, s') ->
  (epoch < epochs_resampling s - 1 ->
     exists r, resample_random_block nb s = inr r /\ s' = snd (install_block r s))
  /\ (epoch = epochs_resampling s - 1 ->
     exists b ei w,
       best_block s = Some b /\ best_edge_index s = Some ei
       /\ best_pert_edge_weight s = Some w
       /\ s' = set_block_edge_weight (Some w)
                 (set_block_edge_index (Some ei) (set_current_block (Some b) s)))
  /\ (epochs_resampling s - 1 < epoch -> s' = s).
Proof.
  unfold resample_or_retrieve. rewrite bind_run. unfold gets. cbn [fst snd].
  destruct (Z.ltb_spec epoch (epochs_resampling s - 1)) as [Hlt | Hge].
  - intros H. repeat split; try lia. intros _.
    rewrite bind_run in H. unfold get in H. cbn [fst snd] in H.
    rewrite bind_run in H. unfold lift in H. cbn [fst snd] in H.
    destruct (resample_random_block nb s) as [e | r]; cbn [fst snd] in H; [discriminate |].
    exists r. split; [reflexivity |]. now rewrite H.
  - destruct (Z.eqb_spec epoch (epochs_resampling s - 1)) as [Heq | Hne].
    + intros H. repeat split; try lia. intros _. now apply retrieve_best_ok in H.
    + intros H. repeat split; try lia. intros _. unfold ret in H. now injection H.
Qed.

Lemma step_and_project_keeps_base e g nb :
  preserves (fun s => (base s, epochs_resampling s)) (step_and_project e g nb).
Proof.
  unfold step_and_project. preserves_tac; try apply preserves_read_only, coeff_reads.
Qed.

Lemma save_best_keeps_base m :
  preserves (fun s => (base s, epochs_resampling s)) (save_best m).
Proof. unfold save_best. preserves_tac. Qed.

(** C3, amended: with early stopping enabled, a call of [update] that
    returns has resampled the block exactly once when
    [epoch < epochs_resampling - 1] (the state is the one that
    [resample_random_block] produces from the state after the best-epoch
    bookkeeping); at [epoch == epochs_resampling - 1] it has not resampled
    but set the current block, its edge index and its weights to the
    stored best state; and afterwards it does neither. *)
Theorem resampling_schedule_under_early_stopping
  (epoch : Z) (gradient : list Q) (nb : Z) (s s' : PRBCDAttack) (sc : scalars) (v : pyval) :
  coeffs (base s) !! "with_early_stopping"%string = Some v -> truthy v = true ->
  update epoch gradient nb s = (inr sc, s') ->
  exists m,
    let s1 := snd (step_and_project epoch gradient nb s) in
    let s2 := snd (save_best m s1) in
    fst (epoch_metric nb s1) = inr m
    /\ (epoch < epochs_resampling s - 1 ->
          exists r, resample_random_block nb s2 = inr r /\ s' = snd (install_block r s2))
    /\ (epoch = epochs_resampling s - 1 ->
          (exists b ei w,
             best_block s2 = Some b /\ best_edge_index s2 = Some ei
             /\ best_pert_edge_weight s2 = Some w
             /\ s' = set_block_edge_weight (Some w)
                       (set_block_edge_index (Some ei) (set_current_block (Some b) s2)))
          /\ current_block s' = best_block s'
          /\ block_edge_index s' = best_edge_index s'
          /\ block_edge_weight s' = best_pert_edge_weight s'
          /\ rng s' = rng s2)
    /\ (epochs_resampling s - 1 < epoch -> s' = s2).
Proof.
  intros Hv Ht Hrun. rewrite update_run in Hrun. cbn zeta in Hrun.
  cbn zeta.
  pose proof (step_and_project_keeps_base epoch gradient nb s) as Hbase.
  cbn beta in Hbase. injection Hbase as Hb1 He1.
  set (s1 := snd (step_and_project epoch gradient nb s)) in *.
  destruct (fst (step_and_project epoch gradient nb s)) as [e | sc0]; [discriminate |].
  rewrite Hb1, Hv, Ht in Hrun. simpl in Hrun.
  destruct (fst (epoch_metric nb s1)) as [e | m]; [discriminate |].
  exists m. split; [reflexivity |].
  pose proof (save_best_keeps_base m s1) as Hbase2.
  cbn beta in Hbase2. injection Hbase2 as Hb2 He2.
  set (s2 := snd (save_best m s1)) in *.
  destruct (fst (save_best m s1)) as [e | []]; [discriminate |].
  destruct (resample_or_retrieve epoch nb s2) as [[e | []] s3] eqn:Hr; [discriminate |].
  simpl in Hrun. injection Hrun as _ <-.
  apply resample_or_retrieve_ok in Hr. rewrite He2, He1 in Hr.
  destruct Hr as (Hlt & Heq & Hgt).
  split; [exact Hlt |]. split; [| exact Hgt].
  intros Hep. destruct (Heq Hep) as (b & ei & w & Hb & Hei & Hw & ->).
  split; [now exists b, ei, w |]. cbn. now rewrite Hb, Hei, Hw.
Qed.


(** ** The loss and the metric (C7) *)

(** C7, amended: [loss] must be one of the three names, which select
    [masked_cross_entropy], [probability_margin_loss] and
    [tanh_margin_loss]; anything else, a callable included, fails the
    assertion and changes nothing.  The callable of the caller goes through
    [metric]: it is stored as it is, and [metric=None] stores the selected
    loss. *)
Theorem loss_selection (loss metric : option pyobj) (s : PRBCDAttack) :
  select_loss loss metric s =
  match loss with
  | Some (Str name) =>
      match named_loss name with
      | Some f =>
          (inr tt,
           set_metric (match metric with Some m => Some m | None => Some (Fn f) end)
             (set_loss (Some (Fn f)) s))
      | None => (inl (AssertionError ""), s)
      end
  | _ => (inl (AssertionError ""), s)
  end.
Proof.
  unfold select_loss, named_loss.
  destruct loss as [[name | f] |]; try reflexivity.
  unfold is_str. cbn [existsb].
  destruct (String.eqb name "mce") eqn:E1.
  { destruct metric; reflexivity. }
  destruct (String.eqb name "prob_margin") eqn:E2.
  { destruct metric; reflexivity. }
  destruct (String.eqb name "tanh_margin") eqn:E3.
  { destruct metric; reflexivity. }
  reflexivity.
Qed.

(** ** The budget of the flipped edges (C2) *)

Lemma attack_run (a : Args) (s : PRBCDAttack) :
  attack a s =
  let s1 := snd (attack_epochs a s) in
  match fst (attack_epochs a s) with
  | inl e => (inl e, s1)
  | inr _ =>
      let s2 := snd (get_flipped_edges s1) in
      match fst (get_flipped_edges s1) with
      | inl e => (inl e, s2)
      | inr flipped_edges =>
          if Z.of_nat (length flipped_edges) <=? num_budgets (base s2)
          then flip_edges 0 flipped_edges s2
          else (inl (AssertionError budget_message), s2)
      end
  end.
Proof.
  cbn zeta. unfold attack. rewrite bind_run.
  destruct (fst (attack_epochs a s)); [reflexivity |].
  rewrite bind_run.
  destruct (fst (get_flipped_edges (snd (attack_epochs a s)))); [reflexivity |].
  rewrite bind_run. unfold gets. cbn [fst snd].
  rewrite bind_run. unfold py_assert.
  destruct (Z.of_nat (length l) <=? _); reflexivity.
Qed.

Lemma retrieve_best_keeps_base : preserves base retrieve_best.
Proof. unfold retrieve_best. preserves_tac. Qed.

(** The final sampler is called with the budget that the validation
    compares against afterwards. *)
Lemma get_flipped_edges_ok (s s' : PRBCDAttack) (flipped : list (Z * Z)) :
  get_flipped_edges s = (inr flipped, s') ->
  exists s0 r,
    base s0 = base s /\ base s' = base s
    /\ sample_final_edges (feat (base s0)) (num_budgets (base s0))
         (victim_nodes s0) (victim_labels s0) s0 = inr (flipped, r).
Proof.
  unfold get_flipped_edges. rewrite bind_run, coeff_run. cbn [fst snd].
  destruct (coeffs (base s) !! "with_early_stopping"%string) as [v |]; [| discriminate].
  rewrite bind_run.
  set (c := if truthy v then retrieve_best else ret tt).
  assert (Hc : base (snd (c s)) = base s).
  { subst c. destruct (truthy v); [apply retrieve_best_keeps_base | reflexivity]. }
  destruct (fst (c s)); [discriminate |].
  rewrite bind_run. unfold get. cbn [fst snd].
  rewrite bind_run. unfold lift. cbn [fst snd].
  destruct (sample_final_edges _ _ _ _ _) as [e | [fl r]] eqn:Hs; [discriminate |].
  rewrite bind_run. unfold modify, ret. cbn [fst snd].
  intros H. injection H as <- <-.
  exists (snd (c s)), r. repeat split; [exact Hc | exact Hc | exact Hs].
Qed.

(** C2: an [attack] that completes has passed the validation, so the
    edges that [get_flipped_edges] returned are at most [num_budgets]; when
    they are more the call ends in the [AssertionError] of the validation;
    and when the final sampler keeps to the budget it is given, the
    validation always passes and the call goes on to flip the edges. *)
Theorem flipped_edges_within_budget (a : Args) (s : PRBCDAttack) :
  (forall s', attack a s = (inr tt, s') ->
     exists s1 flipped s2,
       attack_epochs a s = (inr tt, s1)
       /\ get_flipped_edges s1 = (inr flipped, s2)
       /\ Z.of_nat (length flipped) <= num_budgets (base s2)
       /\ flip_edges 0 flipped s2 = (inr tt, s'))
  /\ (forall s1 flipped s2,
        attack_epochs a s = (inr tt, s1) ->
        get_flipped_edges s1 = (inr flipped, s2) ->
        num_budgets (base s2) < Z.of_nat (length flipped) ->
        attack a s = (inl (AssertionError budget_message), s2))
  /\ ((forall x nb vn vl st edges r,
         sample_final_edges x nb vn vl st = inr (edges, r) ->
         Z.of_nat (length edges) <= nb) ->
      forall s1 flipped s2,
        attack_epochs a s = (inr tt, s1) ->
        get_flipped_edges s1 = (inr flipped, s2) ->
        Z.of_nat (length flipped) <= num_budgets (base s2)
        /\ attack a s = flip_edges 0 flipped s2).
Proof.
  split; [| split].
  - intros s' H. rewrite attack_run in H. cbn zeta in H.
    destruct (attack_epochs a s) as [[e | []] s1] eqn:H1; cbn [fst snd] in H; [discriminate |].
    destruct (get_flipped_edges s1) as [[e | fl] s2] eqn:H2; cbn [fst snd] in H; [discriminate |].
    destruct (Z.leb_spec (Z.of_nat (length fl)) (num_budgets (base s2))); [| discriminate].
    now exists s1, fl, s2.
  - intros s1 fl s2 H1 H2 Hover. rewrite attack_run. cbn zeta. rewrite H1. cbn [fst snd].
    rewrite H2. cbn [fst snd].
    destruct (Z.leb_spec (Z.of_nat (length fl)) (num_budgets (base s2))); [lia | reflexivity].
  - intros Hsampler s1 fl s2 H1 H2.
    assert (Hle : Z.of_nat (length fl) <= num_budgets (base s2)).
    { destruct (get_flipped_edges_ok _ _ _ H2) as (s0 & r & Hb0 & Hb2 & Hs).
      apply Hsampler in Hs. now rewrite Hb2, <- Hb0. }
    split; [exact Hle |].
    rewrite attack_run. cbn zeta. rewrite H1. cbn [fst snd]. rewrite H2. cbn [fst snd].
    destruct (Z.leb_spec (Z.of_nat (length fl)) (num_budgets (base s2))); [reflexivity | lia].
Qed.

End WithCollaborators.


(** ** Concrete runs *)

Section ToyRuns.
Import Toy.

#[local] Existing Instance toy.

(** C2, a completed attack on the toy graph. *)
Lemma flipped_edges_within_budget_witness :
  exists s1 flipped s2,
    attack_epochs toy_args toy_fresh = (inr tt, s1)
    /\ get_flipped_edges s1 = (inr flipped, s2)
    /\ Z.of_nat (length flipped) <= num_budgets (base s2)
    /\ flip_edges 0 flipped s2 = (inr tt, snd (attack toy_args toy_fresh)).
Proof.
  apply (proj1 (flipped_edges_within_budget toy_args toy_fresh)).
  vm_compute. reflexivity.
Defined.

(** C3, the claim as stated fails: with early stopping disabled [update]
    returns before the resampling.  At epoch 0 of 3 resampling epochs the
    block is the one it was (resampling would renumber it and advance the
    random generator), and at epoch 2 the block weights are not the stored
    best weights. *)
Lemma no_resampling_without_early_stopping :
  let s := without_early_stopping toy_running in
  let early := update 0 toy_gradient 1 s in
  let boundary := update 2 toy_gradient 1 s in
  epochs_resampling s = 3
  /\ returned (fst early) = true
  /\ current_block (snd early) = Some [1; 2; 5] /\ rng (snd early) = rng s
  /\ (exists r, resample_random_block 1 (snd early) = inr r /\ ids (fst r) = [11; 12; 15])
  /\ returned (fst boundary) = true
  /\ block_edge_weight (snd boundary) <> best_pert_edge_weight (snd boundary).
Proof.
  vm_compute. repeat split; try (eexists; split; reflexivity). discriminate.
Qed.

(** C3, amended, at the boundary epoch of the toy run. *)
Lemma resampling_schedule_witness :
  let s' := snd (update 2 toy_gradient 1 toy_running) in
  current_block s' = best_block s'
  /\ block_edge_index s' = best_edge_index s'
  /\ block_edge_weight s' = best_pert_edge_weight s'.
Proof.
  destruct (resampling_schedule_under_early_stopping 2 toy_gradient 1 toy_running
              (snd (update 2 toy_gradient 1 toy_running))
              (scalars_of (update 2 toy_gradient 1 toy_running)) (VBool true))
    as (m & _ & _ & H & _).
  - reflexivity.
  - reflexivity.
  - vm_compute. reflexivity.
  - destruct (H eq_refl) as (_ & H1 & H2 & H3 & _). auto.
Defined.

(** And before the boundary: the block is the resampled one. *)
Example resampled_before_the_boundary :
  let r := update 0 toy_gradient 1 toy_running in
  returned (fst r) = true /\ current_block (snd r) = Some [11; 12; 15].
Proof. vm_compute. split; reflexivity. Qed.

(** C4 on the toy run: the first epoch improves on minus infinity, a later
    epoch with the same metric leaves the best state alone. *)
Example best_state_on_the_toy_run :
  best_metric toy_fresh = NegInf
  /\ best_metric toy_running = Fin 3
  /\ best_state (snd (update 3 toy_gradient 1 toy_running)) = best_state toy_running.
Proof. vm_compute. repeat split. Qed.

(** C7, the claim as stated fails: a callable passed as [loss] does not
    pass the assertion, in [select_loss] and so in [attack]. *)
Lemma callable_loss_is_refused :
  select_loss (Some (Fn (user_callable 0))) None toy_fresh
  = (inl (AssertionError ""), toy_fresh)
  /\ fst (attack (toy_args_with (Some (Fn (user_callable 0)))) toy_fresh)
     = inl (AssertionError "")
  /\ metric (snd (attack (mkArgs 0 None (Some (PyInt 1)) true 250000 4 3
                            (Some (Str "mce")) (Some (Fn (user_callable 0))) 2000%Q
                            true false []) toy_fresh))
     = Some (Fn (user_callable 0)).
Proof. vm_compute. repeat split. Qed.

End ToyRuns.

End PRBCDProofs.

(** * PRBCDAttack: the projection step (C1) *)

Module ProjectionStep.
Import Py Torch PRBCD PyFacts SpecWords ProjectionProofs PRBCDProofs.
Local Open Scope Z_scope.

Section Step.

Context {C : Collaborators}.



End Step.

Section StepRuns.
Import Toy.

#[local] Existing Instance toy.



End StepRuns.

End ProjectionStep.

(** * InjectionAttacker: further properties *)

Module InjectionExtras.
Import Py Torch Injection InjectionReads ToyInjection ToyEdits PyFacts InjectionProofs ProjectionProofs.
Local Open Scope Z_scope.
Local Open Scope py_scope.


Lemma preserves_on_self {A X : Type} (f : World -> X) (c : M InjectionAttacker A) :
  (forall h, preserves (fun a => f (mkWorld a h)) c) ->
  preserves f (on_self c).
Proof.
  intros H w. unfold on_self. specialize (H (heap w) (self w)).
  destruct (c (self w)) as [r a']. simpl in *. rewrite H. now destruct w.
Qed.

Lemma preserves_store {X : Type} (f : World -> X) (ref : nat) (d : pydict) :
  (forall a h h', f (mkWorld a h) = f (mkWorld a h')) -> preserves f (store ref d).
Proof. intros H [a h]. unfold store, modify. simpl. apply H. Qed.

Ltac world_tac :=
  repeat first
    [ apply preserves_read_only;
      first [ apply read_only_ret | apply read_only_raise | apply read_only_lift
            | apply read_only_gets | apply read_only_require | apply read_only_py_assert ]
    | apply preserves_store; intros; reflexivity
    | apply preserves_on_self; intros ?
    | apply preserves_modify; intros ?; reflexivity
    | apply preserves_bind; [| intros ?]
    | match goal with
      | |- preserves _ (match ?x with _ => _ end) => destruct x
      | |- preserves _ (if ?c then _ else _) => destruct c
      | |- preserves _ (let (_, _) := ?x in _) => destruct x
      end ].

Lemma resolve_num_edges_local_keeps {X : Type} (f : InjectionAttacker -> X) g l :
  preserves f (resolve_num_edges_local g l).
Proof. apply preserves_read_only, resolve_num_edges_local_reads. Qed.

(** [attack] never writes [_is_setup]. *)
Lemma attack_keeps_setup nb tg g l fl fb :
  preserves (fun w => _is_setup (self w)) (attack nb tg g l fl fb).
Proof.
  unfold attack, resolve_feat_limits, unpack_feat_limits, dict_pop.
  world_tac; try apply resolve_num_edges_local_keeps.
Qed.

Lemma attack_ok_flags nb tg g l fl fb (w w' : World) :
  attack nb tg g l fl fb w = (inr tt, w') ->
  _is_reset (self w) = true /\ _is_reset (self w') = false
  /\ match _is_setup (self w') with Some b => b | None => true end = true.
Proof.
  intros H. pose proof (attack_keeps_setup nb tg g l fl fb w) as Hs. rewrite H in Hs.
  simpl in Hs. rewrite Hs.
  destruct (attack_ok_inv _ _ _ _ _ _ _ _ H) as (w1 & w2 & _ & _ & _ & ->).
  unfold attack in H. rewrite bind_run in H. unfold gets in H. cbn [fst snd] in H.
  destruct (match _is_setup (self w) with Some b => b | None => true end);
    [| discriminate].
  destruct (_is_reset (self w)); [| discriminate]. auto.
Qed.

(** X1: when a call of [attack] has returned, every further call of
    [attack], whatever its arguments, raises the [RuntimeError] that asks
    for [reset()] and leaves the attacker and the caller's objects as they
    are. *)
Theorem attack_twice_needs_reset nb tg g l fl fb (w w' : World) :
  attack nb tg g l fl fb w = (inr tt, w') ->
  forall nb2 tg2 g2 l2 fl2 fb2,
    attack nb2 tg2 g2 l2 fl2 fb2 w' = (inl (RuntimeError reset_message), w').
Proof.
  intros H nb2 tg2 g2 l2 fl2 fb2.
  destruct (attack_ok_flags _ _ _ _ _ _ _ _ H) as (_ & Hreset & Hsetup).
  unfold attack. rewrite bind_run. unfold gets. cbn [fst snd].
  rewrite Hsetup, Hreset. reflexivity.
Qed.

Lemma attack_twice_needs_reset_witness :
  let w' := snd (attack (PyInt 2) None None None None None toy_world) in
  attack (PyInt 1) None (Some 3) None None None w' = (inl (RuntimeError reset_message), w').
Proof.
  apply (attack_twice_needs_reset (PyInt 2) None None None None None toy_world).
  vm_compute. reflexivity.
Defined.



(** The run of [attack] once its first checks have passed: the targets,
    the budget and the edge counts are written, then the feature limits
    are resolved, and only a call that gets through clears [_is_reset]. *)
Lemma attack_after_checks nb tg g l fl fb (w : World) (b k : Z) :
  match _is_setup (self w) with Some b => b | None => true end = true ->
  _is_reset (self w) = true ->
  _check_budget nb (Z.of_nat (num_nodes (self w))) = inr b ->
  fst (resolve_num_edges_local g l
         (set_targets (Some (resolve_targets tg (num_nodes (self w)))) (self w))) = inr k ->
  let w1 := mkWorld
              (set_num_edges_local (Some k)
                 (set_num_edges_global g
                    (set_num_budgets (Some b)
                       (set_targets (Some (resolve_targets tg (num_nodes (self w))))
                          (self w)))))
              (heap w) in
  attack nb tg g l fl fb w =
  match fst (resolve_feat_limits fl fb w1) with
  | inl e => (inl e, snd (resolve_feat_limits fl fb w1))
  | inr _ =>
      (inr tt, mkWorld (set__is_reset false (self (snd (resolve_feat_limits fl fb w1))))
                 (heap (snd (resolve_feat_limits fl fb w1))))
  end.
Proof.
  intros Hsetup Hreset Hb Hk. cbn zeta.
  pose proof (resolve_num_edges_local_reads g l
    (set_targets (Some (resolve_targets tg (num_nodes (self w)))) (self w))) as Hro.
  unfold attack, bind, gets, lift, on_self, modify. cbn [fst snd self heap].
  rewrite Hsetup, Hreset, Hb. cbn [negb fst snd self heap].
  destruct (resolve_num_edges_local g l _) as [r a1]. simpl in Hk, Hro. subst r a1.
  cbn [fst snd self heap].
  destruct (resolve_feat_limits fl fb _) as [[e | []] w2]; reflexivity.
Qed.

(** X2: the exclusivity of [feat_limits] and [feat_budgets] is checked
    after the first half of [attack] has run.  A call that passes the
    checks before it and is given both raises the [RuntimeError], and by
    then [targets], [num_budgets], [num_edges_global] and [num_edges_local]
    hold the values of this call; [_is_reset] still holds, [feat_limits] is
    what it was, and no object of the caller is touched. *)
Theorem failed_attack_has_written nb tg g l fl fb (w : World) (b k : Z) :
  match _is_setup (self w) with Some b => b | None => true end = true ->
  _is_reset (self w) = true ->
  _check_budget nb (Z.of_nat (num_nodes (self w))) = inr b ->
  fst (resolve_num_edges_local g l
         (set_targets (Some (resolve_targets tg (num_nodes (self w)))) (self w))) = inr k ->
  let w' := snd (attack nb tg g l (Some fl) (Some fb) w) in
  fst (attack nb tg g l (Some fl) (Some fb) w) = inl (RuntimeError both_feat_message)
  /\ targets (self w') = Some (resolve_targets tg (num_nodes (self w)))
  /\ num_budgets (self w') = Some b
  /\ num_edges_global (self w') = g
  /\ num_edges_local (self w') = Some k
  /\ _is_reset (self w') = true
  /\ feat_limits (self w') = feat_limits (self w)
  /\ heap w' = heap w.
Proof.
  intros Hsetup Hreset Hb Hk. cbn zeta.
  rewrite (attack_after_checks nb tg g l (Some fl) (Some fb) w b k Hsetup Hreset Hb Hk).
  cbn. repeat split. exact Hreset.
Qed.

Lemma failed_attack_has_written_witness :
  let w' := snd (attack (PyInt 2) None None (Some 4) (Some LimitsOther) (Some 1) toy_world) in
  fst (attack (PyInt 2) None None (Some 4) (Some LimitsOther) (Some 1) toy_world)
    = inl (RuntimeError both_feat_message)
  /\ targets (self w') = Some (resolve_targets None (num_nodes (self toy_world)))
  /\ num_budgets (self w') = Some 2
  /\ num_edges_global (self w') = None
  /\ num_edges_local (self w') = Some 4
  /\ _is_reset (self w') = true
  /\ feat_limits (self w') = feat_limits (self toy_world)
  /\ heap w' = heap toy_world.
Proof.
  apply (failed_attack_has_written (PyInt 2) None None (Some 4) LimitsOther 1 toy_world 2 4);
    reflexivity.
Defined.

Lemma unknown_key_run (ref : nat) (d rest : pydict) (key : string) (v : option Q)
  (w : World) :
  heap w !! ref = Some d ->
  dict_remove "max" (dict_remove "min" d) = (key, v) :: rest ->
  resolve_feat_limits (Some (LimitsDict ref)) None w
  = (inl (ValueError ("Unrecognized key " ++ key ++ ".")),
     mkWorld (self w) (<[ref := (key, v) :: rest]> (<[ref := dict_remove "min" d]> (heap w)))).
Proof.
  intros Hd Hrest. unfold resolve_feat_limits, unpack_feat_limits, dict_pop.
  unfold bind, gets, require, store, modify, ret, raise. simpl. rewrite Hd. simpl.
  rewrite Hrest. reflexivity.
Qed.

(** X3: a dict given as [feat_limits] that holds another key besides
    ['min'] and ['max'] makes [attack] raise the [ValueError] that names
    the first such key in insertion order; by then the two [pop]s have run,
    so the caller's dict holds exactly the other keys, in their order. *)
Theorem unknown_key_empties_the_dict nb tg g l (ref : nat) (w : World) (b k : Z)
  (d rest : pydict) (key : string) (v : option Q) :
  match _is_setup (self w) with Some b => b | None => true end = true ->
  _is_reset (self w) = true ->
  _check_budget nb (Z.of_nat (num_nodes (self w))) = inr b ->
  fst (resolve_num_edges_local g l
         (set_targets (Some (resolve_targets tg (num_nodes (self w)))) (self w))) = inr k ->
  heap w !! ref = Some d ->
  dict_remove "max" (dict_remove "min" d) = (key, v) :: rest ->
  let w' := snd (attack nb tg g l (Some (LimitsDict ref)) None w) in
  fst (attack nb tg g l (Some (LimitsDict ref)) None w)
    = inl (ValueError ("Unrecognized key " ++ key ++ "."))
  /\ heap w' !! ref = Some ((key, v) :: rest)
  /\ _is_reset (self w') = true.
Proof.
  intros Hsetup Hreset Hb Hk Hd Hrest. cbn zeta.
  rewrite (attack_after_checks nb tg g l _ None w b k Hsetup Hreset Hb Hk).
  match goal with
  | |- context [resolve_feat_limits _ None ?w1] =>
      rewrite (unknown_key_run ref d rest key v w1 Hd Hrest)
  end.
  cbn [fst snd heap self].
  repeat split; [apply lookup_insert_eq | exact Hreset].
Qed.

Lemma unknown_key_empties_the_dict_witness :
  let w := mkWorld toy_injector
             (<[7%nat := [("min", Some 0%Q); ("low", Some 1%Q); ("max", None); ("high", None)]]> ∅) in
  let w' := snd (attack (PyInt 2) None None (Some 4) (Some (LimitsDict 7)) None w) in
  fst (attack (PyInt 2) None None (Some 4) (Some (LimitsDict 7)) None w)
    = inl (ValueError ("Unrecognized key " ++ "low" ++ "."))
  /\ heap w' !! 7%nat = Some [("low", Some 1%Q); ("high", None)]
  /\ _is_reset (self w') = true.
Proof.
  apply (unknown_key_empties_the_dict (PyInt 2) None None (Some 4) 7 _ 2 4
           [("min", Some 0%Q); ("low", Some 1%Q); ("max", None); ("high", None)]);
    reflexivity.
Defined.

Lemma unpack_feat_limits_keeps_self fl : preserves self (unpack_feat_limits fl).
Proof. unfold unpack_feat_limits, dict_pop. world_tac. Qed.

Lemma edge_eqb_eq (e1 e2 : Z * Z) : edge_eqb e1 e2 = true <-> e1 = e2.
Proof.
  destruct e1 as [a b], e2 as [c d]. unfold edge_eqb. simpl.
  rewrite andb_true_iff, !Z.eqb_eq. split; [intros [-> ->]; reflexivity | now inversion 1].
Qed.

Lemma edge_eqb_neq (e1 e2 : Z * Z) : edge_eqb e1 e2 = false <-> e1 <> e2.
Proof.
  rewrite <- edge_eqb_eq. destruct (edge_eqb e1 e2); split; congruence.
Qed.

Lemma edge_get_dict_set_same key it d : edge_get key (dict_set key it d) = Some it.
Proof.
  induction d as [| [k v] d IH]; simpl.
  - assert (H : edge_eqb key key = true) by now apply edge_eqb_eq.
    now rewrite H.
  - destruct (edge_eqb k key) eqn:Hk; simpl; rewrite Hk; [reflexivity | exact IH].
Qed.

Lemma edge_get_dict_set_other key key' it d :
  key' <> key -> edge_get key' (dict_set key it d) = edge_get key' d.
Proof.
  intros Hne. induction d as [| [k v] d IH]; simpl.
  - assert (H : edge_eqb key key' = false) by (apply edge_eqb_neq; congruence).
    now rewrite H.
  - destruct (edge_eqb k key) eqn:Hk; simpl.
    + apply edge_eqb_eq in Hk. subst k.
      assert (H : edge_eqb key key' = false) by (apply edge_eqb_neq; congruence).
      now rewrite H.
    + destruct (edge_eqb k key'); [reflexivity | exact IH].
Qed.

Lemma edge_get_None key d : edge_get key d = None <-> ~ In key (map fst d).
Proof.
  induction d as [| [k v] d IH]; simpl.
  - tauto.
  - destruct (edge_eqb k key) eqn:Hk.
    + apply edge_eqb_eq in Hk. split; [discriminate | tauto].
    + apply edge_eqb_neq in Hk. rewrite IH. tauto.
Qed.

Lemma dict_set_keys key it d :
  map fst (dict_set key it d)
  = match edge_get key d with
    | Some _ => map fst d
    | None => map fst d ++ [key]
    end.
Proof.
  induction d as [| [k v] d IH]; simpl; [reflexivity |].
  destruct (edge_eqb k key) eqn:Hk; simpl; [reflexivity |].
  rewrite IH. now destruct (edge_get key d).
Qed.

(** X7: [inject_edge(u, v, it)] never raises; afterwards the iteration
    stored under [(u, v)] is [it], every other key holds what it held, a
    key that was there keeps its place (only its iteration is overwritten)
    and a new key is appended at the end; the injected nodes and features
    are not touched. *)
Theorem inject_edge_writes_one_key (u v : Z) (it : option Z) (a : InjectionAttacker) :
  let a' := snd (inject_edge u v it a) in
  fst (inject_edge u v it a) = inr tt
  /\ edge_get (u, v) (_injected_edges a') = Some it
  /\ (forall key, key <> (u, v) ->
        edge_get key (_injected_edges a') = edge_get key (_injected_edges a))
  /\ edge_keys a' = match edge_get (u, v) (_injected_edges a) with
                    | Some _ => edge_keys a
                    | None => edge_keys a ++ [(u, v)]
                    end
  /\ _injected_nodes a' = _injected_nodes a
  /\ _injected_feats a' = _injected_feats a.
Proof.
  cbn zeta. unfold inject_edge, modify, edge_keys. cbn [fst snd].
  destruct a; cbn.
  repeat split.
  - apply edge_get_dict_set_same.
  - intros key Hne. now apply edge_get_dict_set_other.
  - apply dict_set_keys.
Qed.

(** The run of [inject_node]: it appends one node and one feature vector,
    or raises and writes nothing. *)
Lemma inject_node_run node f rnd (a : InjectionAttacker) :
  (exists t, inject_node node f rnd a
             = (inr tt, set__injected_feats (_injected_feats a ++ [t])
                          (set__injected_nodes (_injected_nodes a ++ [node]) a))
             /\ (forall t', f = Some t' -> t = t'))
  \/ (exists e, inject_node node f rnd a = (inl e, a)).
Proof.
  unfold inject_node, bind, get, require, lift, py_assert, ret, raise, modify.
  cbn [fst snd].
  destruct f as [t |].
  - destruct (feat_budgets a) as [b |].
    + destruct (count_nonzero t <=? b); cbn.
      * left. exists t. split; [destruct a; reflexivity | now inversion 1].
      * right. eauto.
    + destruct (feat_limits a) as [[lo hi] |]; cbn; [| right; eauto].
      destruct (tensor_min t) as [e | mn]; cbn; [right; eauto |].
      destruct (Qle_bool lo mn); cbn; [| right; eauto].
      destruct (tensor_max t) as [e | mx]; cbn; [right; eauto |].
      destruct (Qle_bool mx hi); cbn; [| right; eauto].
      left. exists t. split; [destruct a; reflexivity | now inversion 1].
  - destruct (feat_budgets a) as [b |].
    + destruct (feat a); cbn [fst snd]; [| right; eauto].
      destruct (index_put _ _ _) as [e | t']; cbn [fst snd]; [right; eauto |].
      left. exists t'. split; [destruct a; reflexivity | discriminate].
    + destruct (feat a); cbn; [| right; eauto].
      destruct (feat_limits a) as [[lo hi] |]; cbn; [| right; eauto].
      destruct (Qltb hi lo); cbn; [right; eauto |].
      left. eexists. split; [destruct a; reflexivity | discriminate].
Qed.

(** X8: [inject_node] either returns, and then it has appended the node
    to [_injected_nodes] and exactly one feature vector to
    [_injected_feats] (the one supplied, when one was supplied) and left
    the injected edges alone; or it raises, and then the attacker is
    exactly as it was. *)
Theorem inject_node_appends_or_leaves node f rnd (a : InjectionAttacker) :
  let a' := snd (inject_node node f rnd a) in
  match fst (inject_node node f rnd a) with
  | inr _ =>
      _injected_nodes a' = _injected_nodes a ++ [node]
      /\ (exists t, _injected_feats a' = _injected_feats a ++ [t]
                    /\ forall t', f = Some t' -> t = t')
      /\ _injected_edges a' = _injected_edges a
  | inl _ => a' = a
  end.
Proof.
  cbn zeta. destruct (inject_node_run node f rnd a) as [(t & Hrun & Ht) | (e & Hrun)];
    rewrite Hrun; cbn [fst snd]; [| reflexivity].
  destruct a; cbn. repeat split. exists t. split; [reflexivity | exact Ht].
Qed.

Lemma tensor_min_lower (t : Tensor) (mn : Q) :
  tensor_min t = inr mn -> Forall (fun q => (mn <= q)%Q) (storage t).
Proof.
  unfold tensor_min, Qlist_min. destruct (storage t) as [| q l]; [discriminate |].
  intros H. injection H as <-. destruct (fold_left_Qmin_le l q) as [H1 H2].
  constructor; assumption.
Qed.

Lemma tensor_max_upper (t : Tensor) (mx : Q) :
  tensor_max t = inr mx -> Forall (fun q => (q <= mx)%Q) (storage t).
Proof.
  unfold tensor_max, Qlist_max. destruct (storage t) as [| q l]; [discriminate |].
  intros H. injection H as <-. destruct (fold_left_Qmax_ge l q) as [H1 H2].
  constructor; assumption.
Qed.

(** X9: a feature vector that [inject_node] accepts obeys the constraint
    in force: with [feat_budgets] set it has at most that many non-zero
    entries (the limits are not looked at); otherwise [feat_limits] is
    set, the vector has an entry, and every entry lies within the two
    limits. *)
Theorem accepted_feat_obeys_constraint node (t : Tensor) rnd (a a' : InjectionAttacker) :
  inject_node node (Some t) rnd a = (inr tt, a') ->
  match feat_budgets a with
  | Some b => count_nonzero t <= b
  | None =>
      exists lo hi, feat_limits a = Some (lo, hi)
                    /\ storage t <> []
                    /\ Forall (fun q => (lo <= q <= hi)%Q) (storage t)
  end.
Proof.
  unfold inject_node, bind, get, require, lift, py_assert, ret, raise, modify.
  cbn [fst snd].
  destruct (feat_budgets a) as [b |].
  - destruct (Z.leb_spec (count_nonzero t) b); cbn; [trivial | discriminate].
  - destruct (feat_limits a) as [[lo hi] |]; cbn; [| discriminate].
    destruct (tensor_min t) as [e | mn] eqn:Hmn; cbn; [discriminate |].
    destruct (Qle_bool lo mn) eqn:Hlo; cbn; [| discriminate].
    destruct (tensor_max t) as [e | mx] eqn:Hmx; cbn; [discriminate |].
    destruct (Qle_bool mx hi) eqn:Hhi; cbn; [| discriminate].
    intros _. exists lo, hi. split; [reflexivity |]. split.
    + unfold tensor_min in Hmn. destruct (storage t); [discriminate | discriminate].
    + apply Qle_bool_iff in Hlo, Hhi.
      pose proof (tensor_min_lower t mn Hmn) as H1.
      pose proof (tensor_max_upper t mx Hmx) as H2.
      rewrite Forall_forall in *. intros q Hq.
      specialize (H1 q Hq). specialize (H2 q Hq). cbv beta in *. split; lra.
Qed.

Section Graph.

Variable add_edges : list (Z * Z) -> option (list Z * list Z) -> bool -> exn + list (Z * Z).


Lemma apply_edits_kept edits a : kept (apply_edits edits a) = kept a.
Proof.
  revert a. induction edits as [| [u v it | node f rnd] rest IH]; intros a; simpl.
  - reflexivity.
  - rewrite IH. destruct a; reflexivity.
  - rewrite IH.
    destruct (inject_node_run node f rnd a) as [(t & Hrun & _) | (e & Hrun)];
      rewrite Hrun; [destruct a |]; reflexivity.
Qed.

Lemma data_ok_cached symmetric (a a1 : InjectionAttacker) (d : Data) :
  data add_edges symmetric a = (inr d, a1) -> data_cache a1 = Some (symmetric, d).
Proof.
  unfold data, bind, get, lift, modify, ret. cbn [fst snd].
  assert (Hcompute :
    match injected_feats a with
    | inl e => (inl e, a)
    | inr a0 =>
        match cat [Some (x (ori_data a)); a0] with
        | inl e => (inl e, a)
        | inr a2 =>
            match add_edges (edge_index (ori_data a)) (injected_edges a) symmetric with
            | inl e => (inl e, a)
            | inr a3 =>
                (inr {| x := a2; edge_index := a3 |},
                 set_data_cache (Some (symmetric, {| x := a2; edge_index := a3 |})) a)
            end
        end
    end = (inr d, a1) -> data_cache a1 = Some (symmetric, d)).
  { destruct (injected_feats a); [discriminate |].
    destruct (cat _); [discriminate |].
    destruct (add_edges _ _ _); [discriminate |].
    intros H. injection H as <- <-. destruct a; reflexivity. }
  destruct (data_cache a) as [[key cached] |] eqn:Hc; [| exact Hcompute].
  destruct (Bool.eqb key symmetric) eqn:Hkey; [| exact Hcompute].
  intros H. injection H as <- <-. apply Bool.eqb_prop in Hkey. now subst key.
Qed.

(** X11: [data()] is memoised and the edits do not clear the memo: once a
    call of [data(symmetric)] has returned a graph, the same call returns
    that same graph after any sequence of [inject_edge] and [inject_node]
    calls, and the injected edges and nodes of these calls are not in
    it. *)
Theorem data_is_stale_after_edits symmetric (a a1 : InjectionAttacker) (d : Data) :
  data add_edges symmetric a = (inr d, a1) ->
  forall edits,
    data add_edges symmetric (apply_edits edits a1) = (inr d, apply_edits edits a1).
Proof.
  intros H edits. apply data_ok_cached in H.
  pose proof (apply_edits_kept edits a1) as Hk. unfold kept in Hk.
  assert (Hc : data_cache (apply_edits edits a1) = Some (symmetric, d)) by congruence.
  unfold data, bind, get. cbn [fst snd]. rewrite Hc.
  now rewrite Bool.eqb_reflx.
Qed.

(** X12: [data()] needs an injected node.  With nothing memoised and no
    injected feature vector (injected edges or not), it raises the
    [TypeError] of [torch.cat] on [None], whatever [add_edges] would do,
    and memoises nothing. *)
Theorem data_needs_an_injected_node symmetric (a : InjectionAttacker) :
  data_cache a = None -> _injected_feats a = [] ->
  data add_edges symmetric a
  = (inl (TypeError "expected Tensor as element of the list, but got NoneType"), a).
Proof.
  intros Hc Hf. unfold data, bind, get, lift. cbn [fst snd]. rewrite Hc.
  unfold injected_feats. rewrite Hf. reflexivity.
Qed.

Lemma forallb_shape (feats : list Tensor) (s : list nat) :
  Forall (fun t => shape t = s) feats ->
  forallb (fun u => nat_list_eqb (shape u) s) feats = true.
Proof.
  induction 1 as [| t l Ht _ IH]; simpl; [reflexivity |].
  rewrite IH, andb_true_r. unfold nat_list_eqb. now apply bool_decide_eq_true.
Qed.

(** X13: on an attacker with injected feature vectors of [cols] entries
    each and a feature matrix of [rows] by [cols], the first call of
    [data()] returns a feature matrix of [rows + n] rows: the original rows
    first, then the [n] injected vectors in the order of injection; its
    edge index is what [add_edges] returns. *)
Theorem data_appends_injected_rows symmetric (a : InjectionAttacker)
  (rows cols : nat) (ei : list (Z * Z)) :
  data_cache a = None ->
  _injected_feats a <> [] ->
  Forall (fun t => shape t = [cols]) (_injected_feats a) ->
  shape (x (ori_data a)) = [rows; cols] ->
  add_edges (edge_index (ori_data a)) (injected_edges a) symmetric = inr ei ->
  fst (data add_edges symmetric a)
  = inr (mkData
           (mkTensor [(rows + length (_injected_feats a))%nat; cols]
                     (storage (x (ori_data a)) ++ concat (map storage (_injected_feats a))))
           ei).
Proof.
  intros Hc Hne Hshape Hx Hei.
  unfold data, bind, get, lift, modify, ret. cbn [fst snd]. rewrite Hc.
  unfold injected_feats. destruct (_injected_feats a) as [| t feats] eqn:Hf; [congruence |].
  unfold stack. apply Forall_cons in Hshape as [Ht Hrest].
  rewrite Ht. rewrite (forallb_shape feats [cols] Hrest). cbn [rbind fst snd].
  unfold cat. cbn [cat_all rbind]. rewrite Hx. cbn [forallb shape List.tail].
  unfold nat_list_eqb. rewrite bool_decide_eq_true_2 by reflexivity.
  rewrite bool_decide_eq_false_2 by discriminate. cbn [andb negb fst snd].
  rewrite Hei. cbn [fst snd]. f_equal. f_equal. f_equal.
  - cbn. rewrite Hx. cbn. f_equal. lia.
  - cbn. now rewrite app_nil_r.
Qed.

End Graph.

(** X4: after a call of [attack] that returns, each bound of
    [self.feat_limits] is either the constant (0 for the lower, 1 for the
    upper bound) or the observed minimum or maximum of the feature matrix:
    no value that the caller supplied is used.  [_mu] is half the width of
    the range, [(hi - lo) / 2], and [_sigma] is [(lo + hi) / 6];
    [feat_budgets] is the argument and [_is_reset] is cleared. *)
Theorem feat_limits_after_attack nb tg g l fl fb (w w' : World) :
  attack nb tg g l fl fb w = (inr tt, w') ->
  exists f lo hi mu sigma,
    feat (self w) = Some f
    /\ feat_limits (self w') = Some (lo, hi)
    /\ (lo = 0%Q \/ tensor_min f = inr lo)
    /\ (hi = 1%Q \/ tensor_max f = inr hi)
    /\ _mu (self w') = Some mu /\ _sigma (self w') = Some sigma
    /\ (mu == (hi - lo) / 2)%Q /\ (sigma == (lo + hi) / 6)%Q
    /\ feat_budgets (self w') = fb
    /\ _is_reset (self w') = false.
Proof.
  intros H. apply attack_ok_inv in H as (w1 & w2 & Hheap & Hfeat & H & ->).
  unfold resolve_feat_limits in H.
  destruct (is_not_None fl && is_not_None fb); [discriminate |].
  step H as limits w0 Hunpack. destruct limits as [mn mx].
  step H as ft w3 Hft. step H as u1 w4 Hsome.
  step H as lo w5 Hlo. step H as hi w6 Hhi.
  step H as n w7 Hn. step H as u2 w8 Hle.
  unfold bind, on_self, modify in H. cbn [fst snd] in H. injection H as <-.
  cbn [self heap].
  assert (Hself : self w0 = self w1).
  { pose proof (unpack_feat_limits_keeps_self fl w1) as Hp. now rewrite Hunpack in Hp. }
  rewrite Hself in *. rewrite Hfeat in *.
  destruct (feat (self w)) as [f |]; [| discriminate].
  assert (Hlo' : lo = 0%Q \/ tensor_min f = inr lo).
  { destruct mn; [left | right]; unfold ret, lift in Hlo; congruence. }
  assert (Hhi' : hi = 1%Q \/ tensor_max f = inr hi).
  { destruct mx; [left | right]; unfold ret, lift in Hhi; congruence. }
  exists f, lo, hi, ((hi - lo) / 2)%Q, ((hi - (hi - lo) / 2) / 3)%Q.
  clear - Hlo' Hhi'.
  destruct (self w1); cbn.
  repeat split; try assumption; try reflexivity. field.
Qed.

(** X5: when [num_edges_global = g] resolves to a count [k], there is at
    least one target, [k] is the floor quotient of [g] by the number [n] of
    targets, so [k * n <= g < (k + 1) * n], and [k] is not zero: at least 1
    for a positive [g], and negative for a negative [g], which the check
    against zero lets through. *)
Theorem global_edge_count_bounds (g k : Z) (ts : list Z) (a : InjectionAttacker) :
  targets a = Some ts ->
  fst (resolve_num_edges_local (Some g) None a) = inr k ->
  let n := Z.of_nat (length ts) in
  0 < n /\ k <> 0 /\ k * n <= g < (k + 1) * n
  /\ (0 < g -> 1 <= k) /\ (g < 0 -> k <= -1).
Proof.
  intros Hts. unfold resolve_num_edges_local, bind, gets, require, ret, raise. simpl.
  rewrite Hts. cbn zeta.
  destruct (Z.eqb_spec (Z.of_nat (length ts)) 0) as [| Hn]; [discriminate |].
  destruct (Z.eqb_spec (g / Z.of_nat (length ts)) 0) as [| Hk]; [discriminate |].
  simpl. intros H. injection H as <-.
  set (n := Z.of_nat (length ts)) in *.
  assert (Hpos : 0 < n) by (unfold n in *; lia).
  pose proof (Z.mul_div_le g n Hpos). pose proof (Z.mul_succ_div_gt g n Hpos).
  repeat split; try assumption; try nia.
Qed.

Lemma nonzero_from_spec (mask : list bool) (i j : Z) :
  In j (nonzero_from i mask)
  <-> i <= j /\ nth (Z.to_nat (j - i)) mask false = true.
Proof.
  revert i. induction mask as [| b mask IH]; intros i; simpl.
  - split; [tauto |]. intros [_ H]. destruct (Z.to_nat (j - i)); discriminate.
  - rewrite in_app_iff, IH. split.
    + intros [Hin | [Hle Hnth]].
      * destruct b; simpl in Hin; [| tauto]. destruct Hin as [<- | []].
        rewrite Z.sub_diag. simpl. split; [lia | reflexivity].
      * split; [lia |]. replace (Z.to_nat (j - i)) with (S (Z.to_nat (j - (i + 1)))) by lia.
        exact Hnth.
    + intros [Hle Hnth]. destruct (Z.eq_dec i j) as [<- | Hne].
      * rewrite Z.sub_diag in Hnth. simpl in Hnth. subst b. left. now left.
      * right. split; [lia |].
        replace (Z.to_nat (j - i)) with (S (Z.to_nat (j - (i + 1)))) in Hnth by lia.
        exact Hnth.
Qed.

Lemma nonzero_from_sorted (mask : list bool) (i : Z) :
  StronglySorted Z.lt (nonzero_from i mask).
Proof.
  revert i. induction mask as [| b mask IH]; intros i; simpl; [constructor |].
  destruct b; simpl; [| apply IH].
  constructor; [apply IH |].
  apply List.Forall_forall. intros j Hj. apply nonzero_from_spec in Hj. lia.
Qed.

(** X6: a boolean mask given as [targets] is resolved to the positions
    at which it holds, in strictly increasing order (so without repeats),
    as many as the mask has true entries. *)
Theorem mask_targets_are_the_true_positions (mask : list bool) (n : nat) :
  let ts := resolve_targets (Some (TargetsMask mask)) n in
  (forall j, In j ts <-> 0 <= j /\ nth (Z.to_nat j) mask false = true)
  /\ StronglySorted Z.lt ts
  /\ length ts = length (List.filter (fun b : bool => b) mask).
Proof.
  cbn zeta. unfold resolve_targets. split; [| split].
  - intros j. rewrite nonzero_from_spec, Z.sub_0_r. tauto.
  - apply nonzero_from_sorted.
  - generalize 0. induction mask as [| b mask IH]; intros i; simpl; [reflexivity |].
    rewrite length_app, IH. now destruct b.
Qed.

(** X10: after [reset()] and any sequence of [inject_edge] and
    [inject_node] calls, failed ones included, [_injected_nodes] and
    [_injected_feats] have the same length, and no edge occurs twice among
    the keys of [_injected_edges]. *)
Theorem edits_keep_the_records_aligned (a : InjectionAttacker) (edits : list edit) :
  let a' := apply_edits edits (snd (reset a)) in
  length (_injected_nodes a') = length (_injected_feats a')
  /\ List.NoDup (edge_keys a').
Proof.
  cbn zeta.
  assert (Hinv : forall a0,
    length (_injected_nodes a0) = length (_injected_feats a0) /\ List.NoDup (edge_keys a0) ->
    length (_injected_nodes (apply_edits edits a0)) = length (_injected_feats (apply_edits edits a0))
    /\ List.NoDup (edge_keys (apply_edits edits a0))).
  { induction edits as [| [u v it | node f rnd] rest IH]; intros a0 [Hlen Hnd]; simpl.
    - auto.
    - apply IH. unfold inject_edge, modify, edge_keys in *. cbn [snd].
      destruct a0; cbn in *. split; [exact Hlen |].
      rewrite dict_set_keys.
      destruct (edge_get (u, v) _) eqn:Hget; [exact Hnd |].
      apply edge_get_None in Hget.
      apply List.NoDup_app; [exact Hnd | repeat constructor; simpl; tauto |].
      intros e He [<- | []]. exact (Hget He).
    - apply IH.
      destruct (inject_node_run node f rnd a0) as [(t & Hrun & _) | (e & Hrun)];
        rewrite Hrun; cbn [snd]; [| auto].
      unfold edge_keys. destruct a0; cbn in *. rewrite !length_app. simpl. split; [lia | exact Hnd]. }
  apply Hinv. split; [reflexivity | constructor].
Qed.

(** ** The properties above on the toy attacker *)

(** X4 on the toy attacker: no limits were given, so both are observed. *)
Lemma feat_limits_after_attack_witness :
  let w' := snd (attack (PyInt 2) None None None None None toy_world) in
  exists f lo hi mu sigma,
    feat (self toy_world) = Some f
    /\ feat_limits (self w') = Some (lo, hi)
    /\ (lo = 0%Q \/ tensor_min f = inr lo)
    /\ (hi = 1%Q \/ tensor_max f = inr hi)
    /\ _mu (self w') = Some mu /\ _sigma (self w') = Some sigma
    /\ (mu == (hi - lo) / 2)%Q /\ (sigma == (lo + hi) / 6)%Q
    /\ feat_budgets (self w') = None
    /\ _is_reset (self w') = false.
Proof.
  apply (feat_limits_after_attack (PyInt 2) None None None None None toy_world).
  vm_compute. reflexivity.
Defined.

(** X5: seven edges for three targets are two edges each. *)
Lemma global_edge_count_bounds_witness :
  let n := Z.of_nat (length [0; 1; 2]) in
  0 < n /\ 2 <> 0 /\ 2 * n <= 7 < (2 + 1) * n /\ (0 < 7 -> 1 <= 2) /\ (7 < 0 -> 2 <= -1).
Proof.
  apply (global_edge_count_bounds 7 2 [0; 1; 2] (set_targets (Some [0; 1; 2]) toy_injector));
    reflexivity.
Defined.

(** X9: the vector (0, 1) within the observed limits -1 and 3. *)
Lemma accepted_feat_obeys_constraint_witness :
  match feat_budgets toy_attacked with
  | Some b => count_nonzero (mkTensor [2%nat] [0; 1]%Q) <= b
  | None =>
      exists lo hi, feat_limits toy_attacked = Some (lo, hi)
                    /\ storage (mkTensor [2%nat] [0; 1]%Q) <> []
                    /\ Forall (fun q => (lo <= q <= hi)%Q) (storage (mkTensor [2%nat] [0; 1]%Q))
  end.
Proof.
  apply (accepted_feat_obeys_constraint 3 (mkTensor [2%nat] [0; 1]%Q) (mkDraw [] [])
           toy_attacked
           (snd (inject_node 3 (Some (mkTensor [2%nat] [0; 1]%Q)) (mkDraw [] []) toy_attacked))).
  vm_compute. reflexivity.
Defined.

(** X11: the graph returned before the edge (4, 1) is injected is returned
    after it. *)
Lemma data_is_stale_after_edits_witness :
  let a1 := snd (data toy_add_edges true toy_injected) in
  data toy_add_edges true (apply_edits [InjectEdge 4 1 None] a1)
  = (inr toy_perturbed, apply_edits [InjectEdge 4 1 None] a1).
Proof.
  apply (data_is_stale_after_edits toy_add_edges true toy_injected).
  vm_compute. reflexivity.
Defined.

(** X12: an injected edge and no injected node. *)
Lemma data_needs_an_injected_node_witness :
  data toy_add_edges true (snd (inject_edge 3 0 None toy_attacked))
  = (inl (TypeError "expected Tensor as element of the list, but got NoneType"),
     snd (inject_edge 3 0 None toy_attacked)).
Proof.
  apply (data_needs_an_injected_node toy_add_edges true
           (snd (inject_edge 3 0 None toy_attacked)));
    reflexivity.
Defined.

(** X13: three rows and the one injected row. *)
Lemma data_appends_injected_rows_witness :
  fst (data toy_add_edges true toy_injected)
  = inr (mkData
           (mkTensor [(3 + length (_injected_feats toy_injected))%nat; 2%nat]
                     (storage (x (ori_data toy_injected))
                      ++ concat (map storage (_injected_feats toy_injected))))
           [(0, 1); (1, 2); (3, 0); (0, 3)]).
Proof.
  apply (data_appends_injected_rows toy_add_edges true toy_injected 3 2
           [(0, 1); (1, 2); (3, 0); (0, 3)]).
  - reflexivity.
  - vm_compute. discriminate.
  - vm_compute. repeat constructor.
  - reflexivity.
  - reflexivity.
Defined.

End InjectionExtras.

(** * PRBCDAttack: further properties *)

Module PRBCDExtras.
Import Py Torch PRBCD PRBCDReads PyFacts SpecWords PRBCDProofs.
Local Open Scope Z_scope.
Local Open Scope py_scope.

Section Epochs.

Context {C : Collaborators}.


Lemma step_and_project_keeps_search_space e g nb :
  preserves search_space (step_and_project e g nb).
Proof.
  unfold step_and_project. preserves_tac; try apply preserves_read_only, coeff_reads.
Qed.

(** X14: with [with_early_stopping] false, [update] is the gradient step
    and the projection and nothing else: it returns what they return, the
    block, its edge index and the random generator are the ones it
    started with (nothing is resampled), and the best state is not
    written. *)
Theorem update_without_early_stopping
  (epoch : Z) (gradient : list Q) (nb : Z) (s : PRBCDAttack) (v : pyval) :
  coeffs (base s) !! "with_early_stopping"%string = Some v -> truthy v = false ->
  let s' := snd (update epoch gradient nb s) in
  update epoch gradient nb s = step_and_project epoch gradient nb s
  /\ search_space s' = search_space s
  /\ best_state s' = best_state s.
Proof.
  intros Hv Ht. cbn zeta.
  assert (Hrun : update epoch gradient nb s = step_and_project epoch gradient nb s).
  { rewrite update_run. cbn zeta.
    pose proof (step_and_project_keeps_base epoch gradient nb s) as Hbase.
    cbn beta in Hbase. injection Hbase as Hb _.
    destruct (step_and_project epoch gradient nb s) as [[e | sc] s1]; cbn [fst snd] in *;
      [reflexivity |].
    rewrite Hb, Hv, Ht. reflexivity. }
  rewrite Hrun. split; [reflexivity |]. split.
  - apply step_and_project_keeps_search_space.
  - apply step_and_project_keeps_best.
Qed.

(** X16: [get_flipped_edges] samples the final edges from the best epoch
    and not from the last one when early stopping is enabled: the block,
    its edge index and its weights are first replaced by the stored best
    ones (which must exist), and [sample_final_edges] runs on that state;
    with early stopping disabled it runs on the state as it is.  The
    budget, the victim nodes and the labels passed to it are those of the
    attacker, and the only other change is the random generator. *)
Theorem final_edges_come_from_the_best_block
  (s s' : PRBCDAttack) (flipped : list (Z * Z)) (v : pyval) :
  coeffs (base s) !! "with_early_stopping"%string = Some v ->
  get_flipped_edges s = (inr flipped, s') ->
  let s0 := if truthy v
            then set_block_edge_weight (best_pert_edge_weight s)
                   (set_block_edge_index (best_edge_index s)
                      (set_current_block (best_block s) s))
            else s in
  (truthy v = true ->
     best_block s <> None /\ best_edge_index s <> None /\ best_pert_edge_weight s <> None)
  /\ exists r,
       sample_final_edges (feat (base s)) (num_budgets (base s))
         (victim_nodes s) (victim_labels s) s0 = inr (flipped, r)
       /\ s' = set_rng r s0.
Proof.
  intros Hv. unfold get_flipped_edges. rewrite bind_run, coeff_run. cbn [fst snd].
  rewrite Hv. rewrite bind_run. cbn zeta.
  destruct (truthy v).
  - destruct (retrieve_best s) as [[e | u] s0] eqn:Hr; cbn [fst snd]; [discriminate |].
    apply retrieve_best_ok in Hr as (b & ei & w & Hb & Hei & Hw & ->).
    rewrite Hb, Hei, Hw.
    rewrite bind_run. unfold get. cbn [fst snd].
    rewrite bind_run. unfold lift. cbn [fst snd].
    match goal with
    | |- context [sample_final_edges ?a ?b ?c ?d ?e] =>
        destruct (sample_final_edges a b c d e) as [e0 | [fl r]] eqn:Hs; [discriminate |]
    end.
    rewrite bind_run. unfold modify, ret. cbn [fst snd].
    intros H. injection H as <- <-.
    split; [intros _; repeat split; discriminate |].
    exists r. split; [exact Hs | reflexivity].
  - rewrite bind_run. unfold get. cbn [fst snd].
    rewrite bind_run. unfold lift. cbn [fst snd].
    change (snd (ret (St := PRBCDAttack) tt s)) with s.
    change (fst (ret (St := PRBCDAttack) tt s)) with (@inr exn unit tt). cbn iota.
    destruct (sample_final_edges _ _ _ _ s) as [e0 | [fl r]] eqn:Hs; [discriminate |].
    rewrite bind_run. unfold modify, ret. cbn [fst snd].
    intros H. injection H as <- <-.
    split; [discriminate |].
    exists r. split; reflexivity.
Qed.

Lemma on_base_inv {A : Type} (c : M Attacker A) (s s' : PRBCDAttack) (r : exn + A) :
  on_base c s = (r, s') -> exists b', c (base s) = (r, b') /\ s' = set_base b' s.
Proof.
  unfold on_base. destruct (c (base s)) as [r0 b']. intros H. inversion H. eauto.
Qed.

Lemma select_loss_keeps l m :
  preserves (fun s => (base s, best_state s)) (select_loss l m).
Proof. unfold select_loss. preserves_tac. Qed.

Lemma install_block_keeps r :
  preserves (fun s => (base s, best_state s)) (install_block r).
Proof. unfold install_block. preserves_tac. Qed.

Lemma update_keeps_base e g nb : preserves base (update e g nb).
Proof.
  unfold update, step_and_project, epoch_metric, call_metric, save_best,
    resample_or_retrieve, retrieve_best, install_block.
  preserves_tac; try apply preserves_read_only, coeff_reads.
Qed.

Lemma epoch_loop_keeps_base steps x vl vn nb : preserves base (epoch_loop steps x vl vn nb).
Proof.
  induction steps as [| step steps IH]; simpl.
  - preserves_tac.
  - apply preserves_bind; [preserves_tac | intros s0].
    apply preserves_bind; [preserves_tac | intros lg].
    apply preserves_bind; [apply update_keeps_base | intros sc].
    apply preserves_bind; [| intros _; exact IH].
    unfold _append_statistics. preserves_tac.
Qed.

(** What a run of [attack_epochs] that returns has gone through: the state
    [s1] after the validation of the base class, the state [s2] in which the
    epoch loop starts, and the steps of the loop. *)
Lemma attack_epochs_ok_inv (a : Args) (s s' : PRBCDAttack) :
  attack_epochs a s = (inr tt, s') ->
  exists b1 s2 label,
    super_attack (target a) (arg_target_label a) (arg_num_budgets a)
      (direct_attack a) (structure_attack a) (feature_attack a) (base s) = (inr tt, b1)
    /\ base s2 = set_coeffs (updated (kwargs a) (coeffs b1)) b1
    /\ best_state s2 = best_state s
    /\ epoch_loop (map Z.of_nat (seq 0 (Z.to_nat (epochs a)))) (feat (base s2)) [label]
         [target a] (num_budgets (base s2)) s2 = (inr tt, s').
Proof.
  unfold attack_epochs. intros H.
  apply bind_ok_inv in H as ([] & s1 & H1 & H).
  apply on_base_inv in H1 as (b1 & H1 & ->).
  apply bind_ok_inv in H as ([] & sa & Ha & H).
  unfold modify in Ha. injection Ha as <-.
  apply bind_ok_inv in H as ([] & sb & Hb & H).
  pose proof (select_loss_keeps (arg_loss a) (arg_metric a)
                (set_block_size (arg_block_size a) (set_base b1 s))) as Hkeep.
  rewrite Hb in Hkeep. cbn [snd] in Hkeep.
  pose proof (f_equal fst Hkeep) as Hbase_b. pose proof (f_equal snd Hkeep) as Hbest_b.
  cbn [fst snd] in Hbase_b, Hbest_b. clear Hkeep.
  apply bind_ok_inv in H as ([] & sc & Hc & H).
  unfold modify in Hc. injection Hc as <-.
  apply bind_ok_inv in H as ([] & sd & Hd & H).
  unfold modify in Hd. injection Hd as <-.
  apply bind_ok_inv in H as ([] & se & He & H).
  apply on_base_inv in He as (b2 & He & ->).
  unfold modify in He. injection He as <-.
  apply bind_ok_inv in H as (nb & sf & Hf & H).
  unfold gets in Hf. injection Hf as <- <-.
  apply bind_ok_inv in H as ([] & sg & Hg & H).
  unfold modify in Hg. injection Hg as <-.
  apply bind_ok_inv in H as (lab & sh & Hh & H).
  unfold gets in Hh. injection Hh as <- <-.
  apply bind_ok_inv in H as (label & si & Hi & H).
  apply require_ok_inv in Hi as [Hi ->].
  apply bind_ok_inv in H as ([] & sj & Hj & H).
  unfold modify in Hj. injection Hj as <-.
  apply bind_ok_inv in H as (x & sk & Hk & H).
  unfold gets in Hk. injection Hk as <- <-.
  apply bind_ok_inv in H as (steps & sl & Hl & H).
  unfold prepare in Hl.
  apply bind_ok_inv in Hl as (s0 & sm & Hm & Hl).
  unfold get in Hm. injection Hm as <- <-.
  apply bind_ok_inv in Hl as (r & sn & Hn & Hl).
  apply lift_ok_inv in Hn as [Hn ->].
  apply bind_ok_inv in Hl as ([] & so & Ho & Hl).
  unfold ret in Hl. injection Hl as <- <-.
  match type of Ho with
  | install_block r ?st = _ => pose proof (install_block_keeps r st) as Hkeep
  end.
  rewrite Ho in Hkeep. cbn [snd] in Hkeep.
  pose proof (f_equal fst Hkeep) as Hbase_o. pose proof (f_equal snd Hkeep) as Hbest_o.
  cbn [fst snd] in Hbase_o, Hbest_o. clear Hkeep.
  exists b1, so, label. split; [exact H1 |].
  split; [| split].
  - rewrite Hbase_o. cbn [base set_base set_victim_labels set_victim_nodes].
    rewrite Hbase_b. reflexivity.
  - rewrite Hbest_o. exact Hbest_b.
  - rewrite Hbase_o. exact H.
Qed.

Lemma updated_lookup (kw : list (string * pyval)) (m : gmap string pyval) (k : string) :
  (forall v, In (k, v) kw -> List.NoDup (map fst kw) -> updated kw m !! k = Some v)
  /\ (~ In k (map fst kw) -> updated kw m !! k = m !! k).
Proof.
  unfold updated. revert m. induction kw as [| [k0 v0] kw IH]; intros m; simpl.
  - tauto.
  - split.
    + intros v [Heq | Hin] Hnd; inversion Hnd as [| ? ? Hnotin Hnd']; subst.
      * injection Heq as -> ->.
        destruct (IH (<[k := v]> m)) as [_ Hout]. rewrite (Hout Hnotin).
        apply lookup_insert_eq.
      * destruct (IH (<[k0 := v0]> m)) as [Hin' _]. now apply Hin'.
    + intros Hnot. destruct (IH (<[k0 := v0]> m)) as [_ Hout].
      rewrite Hout by tauto. apply lookup_insert_ne. tauto.
Qed.

(** X17: the keyword arguments of [attack] are written into
    [self.coeffs] after the validation of the base class, and nothing in
    the preparation or in the epoch loop writes the base attributes again:
    when the epoch loop has ended, every key given holds the value given,
    and every other coefficient holds what the base class left. *)
Theorem kwargs_override_the_coefficients (a : Args) (s s' : PRBCDAttack) :
  attack_epochs a s = (inr tt, s') ->
  exists b1,
    super_attack (target a) (arg_target_label a) (arg_num_budgets a)
      (direct_attack a) (structure_attack a) (feature_attack a) (base s) = (inr tt, b1)
    /\ base s' = set_coeffs (updated (kwargs a) (coeffs b1)) b1
    /\ (forall k v, List.NoDup (map fst (kwargs a)) -> In (k, v) (kwargs a) ->
          coeffs (base s') !! k = Some v)
    /\ (forall k, ~ In k (map fst (kwargs a)) -> coeffs (base s') !! k = coeffs b1 !! k).
Proof.
  intros H. apply attack_epochs_ok_inv in H as (b1 & s2 & label & H1 & Hbase & _ & Hloop).
  match type of Hloop with
  | epoch_loop ?st ?x ?vl ?vn ?nb s2 = _ =>
      pose proof (epoch_loop_keeps_base st x vl vn nb s2) as Hkeep
  end.
  rewrite Hloop in Hkeep. cbn [snd] in Hkeep.
  exists b1. split; [exact H1 |]. rewrite Hkeep, Hbase. split; [reflexivity |].
  cbn [coeffs set_coeffs]. split.
  - intros k v Hnd Hin. now apply updated_lookup.
  - intros k Hnot. now apply updated_lookup.
Qed.

Lemma retrieve_best_none (s : PRBCDAttack) :
  best_block s = None -> retrieve_best s = (inl (AttributeError "best_block"), s).
Proof.
  intros H. unfold retrieve_best, bind, gets, require, raise. cbn. now rewrite H.
Qed.

(** X18: with [epochs <= 0] the loop body never runs, so [attack]
    leaves the best state as it found it; with early stopping enabled and
    no best block stored yet, [attack] then raises [AttributeError] for
    [best_block] in [get_flipped_edges], after the preparation has run. *)
Theorem attack_without_epochs_has_no_best_block (a : Args) (s s1 : PRBCDAttack) (v : pyval) :
  epochs a <= 0 ->
  attack_epochs a s = (inr tt, s1) ->
  best_state s1 = best_state s
  /\ (best_block s = None ->
      coeffs (base s1) !! "with_early_stopping"%string = Some v -> truthy v = true ->
      attack a s = (inl (AttributeError "best_block"), s1)).
Proof.
  intros Hep H. pose proof H as Hrun.
  apply attack_epochs_ok_inv in H as (b1 & s2 & label & _ & _ & Hbest & Hloop).
  replace (Z.to_nat (epochs a)) with 0%nat in Hloop by lia.
  cbn in Hloop. unfold ret in Hloop. injection Hloop as <-.
  split; [exact Hbest |].
  intros Hnone Hv Ht. rewrite attack_run. cbn zeta. rewrite Hrun. cbn [fst snd].
  unfold get_flipped_edges. rewrite bind_run, coeff_run. cbn [fst snd]. rewrite Hv.
  rewrite bind_run, Ht.
  assert (Hb : best_block s2 = None).
  { unfold best_state in Hbest. congruence. }
  rewrite (retrieve_best_none s2 Hb). reflexivity.
Qed.

End Epochs.

Section ToyEpochRuns.
Import Toy ToyEpochs.

#[local] Existing Instance toy.

(** X14 on the toy run, at an epoch before the end of the resampling. *)
Lemma update_without_early_stopping_witness :
  let s := without_early_stopping toy_running in
  let s' := snd (update 0 toy_gradient 1 s) in
  update 0 toy_gradient 1 s = step_and_project 0 toy_gradient 1 s
  /\ search_space s' = search_space s
  /\ best_state s' = best_state s.
Proof.
  apply (update_without_early_stopping 0 toy_gradient 1
           (without_early_stopping toy_running) (VBool false));
    reflexivity.
Defined.

(** X16: the end of the toy run. *)
Lemma final_edges_come_from_the_best_block_witness :
  let s := toy_running in
  let r := get_flipped_edges s in
  let s0 := set_block_edge_weight (best_pert_edge_weight s)
              (set_block_edge_index (best_edge_index s)
                 (set_current_block (best_block s) s)) in
  (best_block s <> None /\ best_edge_index s <> None /\ best_pert_edge_weight s <> None)
  /\ exists g,
       sample_final_edges (feat (base s)) (num_budgets (base s))
         (victim_nodes s) (victim_labels s) s0 = inr (edges_of r, g)
       /\ snd r = set_rng g s0.
Proof.
  destruct (final_edges_come_from_the_best_block toy_running
              (snd (get_flipped_edges toy_running))
              (edges_of (get_flipped_edges toy_running)) (VBool true)) as [H1 H2].
  - reflexivity.
  - vm_compute. reflexivity.
  - split; [apply H1; reflexivity | exact H2].
Defined.

(** X17: early stopping switched off by a keyword argument. *)
Lemma kwargs_override_the_coefficients_witness :
  let a := toy_args_epochs 4 [("with_early_stopping"%string, VBool false)] in
  let s' := snd (attack_epochs a toy_fresh) in
  exists b1,
    super_attack (target a) (arg_target_label a) (arg_num_budgets a)
      (direct_attack a) (structure_attack a) (feature_attack a) (base toy_fresh) = (inr tt, b1)
    /\ base s' = set_coeffs (updated (kwargs a) (coeffs b1)) b1
    /\ (forall k v, List.NoDup (map fst (kwargs a)) -> In (k, v) (kwargs a) ->
          coeffs (base s') !! k = Some v)
    /\ (forall k, ~ In k (map fst (kwargs a)) -> coeffs (base s') !! k = coeffs b1 !! k).
Proof.
  apply (kwargs_override_the_coefficients
           (toy_args_epochs 4 [("with_early_stopping"%string, VBool false)]) toy_fresh).
  vm_compute. reflexivity.
Defined.

(** X18: no epoch on a fresh attacker. *)
Lemma attack_without_epochs_has_no_best_block_witness :
  best_state toy_prepared = best_state toy_fresh
  /\ attack (toy_args_epochs 0 []) toy_fresh = (inl (AttributeError "best_block"), toy_prepared).
Proof.
  destruct (attack_without_epochs_has_no_best_block (toy_args_epochs 0 []) toy_fresh
              toy_prepared (VBool true)) as [H1 H2].
  - vm_compute. discriminate.
  - vm_compute. reflexivity.
  - split; [exact H1 | apply H2; reflexivity].
Defined.

End ToyEpochRuns.

End PRBCDExtras.

(** * GCNConv and GAT *)

Module GCNProofs.
Import Py Torch GCN.

Section Layer.

Context {E : Externals}.

(** X19: a layer built with [add_self_loops=True] (the default) drops
    the [edge_weight] of the caller when the adjacency is an edge index:
    [add_self_loops] is called without it and its second result replaces
    it, so that [forward] returns the same for any two edge weights. *)
Theorem self_loops_drop_the_edge_weights
  (ic oc : Z) (imp c norm : bool) (l : Tensor -> exn + Tensor) (b : option Tensor)
  (x edge_index : Tensor) (w1 w2 : option Tensor) :
  forward (mkGCNConv ic oc imp c true norm l b) x (EdgeIndex edge_index) w1
  = forward (mkGCNConv ic oc imp c true norm l b) x (EdgeIndex edge_index) w2.
Proof. reflexivity. Qed.

(** X20: on a dense adjacency matrix [improved] has no effect on
    [forward]: the self-loops are added with weight 1 by
    [dense_add_self_loops], and [dense_gcn_norm] is called with
    [add_self_loops=False], where it does not use [improved]. *)
Theorem improved_is_ignored_on_dense_input
  (layer : GCNConv) (b1 b2 : bool) (x adj : Tensor) (w : option Tensor) :
  forward (with_improved b1 layer) x (Dense adj) w
  = forward (with_improved b2 layer) x (Dense adj) w.
Proof.
  unfold forward, with_improved. cbn [lin add_loops normalize improved bias].
  destruct (lin layer x) as [e | x']; [reflexivity |]. cbn [rbind].
  destruct (add_loops layer).
  - destruct (dense_add_self_loops adj 1) as [e | adj']; [reflexivity |]. cbn [rbind fst snd].
    destruct (normalize layer); reflexivity.
  - cbn [rbind fst snd]. destruct (normalize layer); reflexivity.
Qed.

End Layer.

End GCNProofs.

Module GATProofs.
Import GAT.
Local Open Scope Z_scope.

Lemma flow_app (d : Z) (l1 l2 : list layer) :
  flow d (l1 ++ l2) = match flow d l1 with Some d' => flow d' l2 | None => None end.
Proof.
  revert d. induction l1 as [| l l1 IH]; intros d; simpl; [reflexivity |].
  destruct (accepts d l); [apply IH | reflexivity].
Qed.

Lemma hidden_flow (blocks : list (Z * Z * option string)) (i h : Z) (dropout : Q)
  (bias bn : bool) :
  let '(conv, i', h') := hidden i h blocks dropout bias bn in
  flow (i * h) conv = Some (i' * h').
Proof.
  revert i h. induction blocks as [| [[hid num_head] act] rest IH]; intros i h; simpl.
  - reflexivity.
  - specialize (IH hid num_head).
    destruct (hidden hid num_head rest dropout bias bn) as [[later i'] h'].
    destruct bn; simpl; rewrite ?Z.eqb_refl; exact IH.
Qed.

(** X21: the layers that the constructor of [GAT] puts into the
    [Sequential] fit together: each [GATConv] and each [BatchNorm1d] is
    given as many features as the layer before it puts out (a hidden
    [GATConv] concatenates its heads), the first takes [in_channels] and
    the last puts out [out_channels], for any lists of hidden sizes, heads
    and activations. *)
Theorem layers_fit_together (in_channels out_channels : Z) (hids num_heads : list Z)
  (acts : list (option string)) (dropout : Q) (bias bn : bool) :
  flow in_channels (init in_channels out_channels hids num_heads acts dropout bias bn)
  = Some out_channels.
Proof.
  unfold init.
  pose proof (hidden_flow (zip3 hids num_heads acts) in_channels 1 dropout bias bn) as H.
  destruct (hidden in_channels 1 (zip3 hids num_heads acts) dropout bias bn) as [[conv i'] h'].
  rewrite Z.mul_1_r in H. rewrite flow_app, H. simpl. now rewrite Z.eqb_refl.
Qed.

Lemma hidden_length (blocks : list (Z * Z * option string)) (i h : Z) (dropout : Q)
  (bias bn : bool) :
  length (fst (fst (hidden i h blocks dropout bias bn)))
  = ((if bn then 4 else 3) * length blocks)%nat.
Proof.
  revert i h. induction blocks as [| [[hid num_head] act] rest IH]; intros i h; simpl.
  - lia.
  - specialize (IH hid num_head).
    destruct (hidden hid num_head rest dropout bias bn) as [[later i'] h'].
    cbn [fst] in *. destruct bn; simpl in *; lia.
Qed.

Lemma zip3_length (hids num_heads : list Z) (acts : list (option string)) :
  length (zip3 hids num_heads acts)
  = Nat.min (length hids) (Nat.min (length num_heads) (length acts)).
Proof.
  revert num_heads acts. induction hids as [| h hids IH]; intros [| n num_heads] [| a acts];
    simpl; try reflexivity. now rewrite IH.
Qed.

(** The depth of what the body builds: the loop runs over the [zip] of
    the three lists that reach it. *)
Lemma init_length (in_channels out_channels : Z)
  (hids num_heads : list Z) (acts : list (option string)) (dropout : Q) (bias bn : bool) :
  length (init in_channels out_channels hids num_heads acts dropout bias bn)
  = ((if bn then 4 else 3)
     * Nat.min (length hids) (Nat.min (length num_heads) (length acts)) + 1)%nat.
Proof.
  unfold init.
  pose proof (hidden_length (zip3 hids num_heads acts) in_channels 1 dropout bias bn) as H.
  destruct (hidden in_channels 1 (zip3 hids num_heads acts) dropout bias bn) as [[conv i'] h'].
  cbn [fst] in H. rewrite length_app, H, zip3_length. simpl. lia.
Qed.

(** X22: when the decorator hands the body three lists as long as [hids]
    (it stretches or cuts the heads and the activations), the constructor
    builds one hidden block for each entry of [hids]: the [Sequential]
    holds three modules for each of them, four with [bn], and the output
    layer. *)
Theorem depth_follows_hids
  (wrapper : list Z -> list Z -> list (option string)
             -> list Z * list Z * list (option string))
  (in_channels out_channels : Z) (hids num_heads : list Z) (acts : list (option string))
  (dropout : Q) (bias bn : bool) :
  length (fst (fst (wrapper hids num_heads acts))) = length hids ->
  length (snd (fst (wrapper hids num_heads acts))) = length hids ->
  length (snd (wrapper hids num_heads acts)) = length hids ->
  length (__init__ wrapper in_channels out_channels hids num_heads acts dropout bias bn)
  = ((if bn then 4 else 3) * length hids + 1)%nat.
Proof.
  unfold __init__. destruct (wrapper hids num_heads acts) as [[h n] a]. cbn [fst snd].
  intros Hh Hn Ha. rewrite init_length, Hh, Hn, Ha, !Nat.min_id. reflexivity.
Qed.

(** X22 on the call of the docstring with three hidden sizes and one
    entry for the heads and for the activations. *)
Lemma depth_follows_hids_witness :
  length (__init__ ToyGAT.toy_wrapper 100 10 [32; 16; 8] [8] [Some "elu"%string]
            (6 # 10) true false)
  = ((if false then 4 else 3) * length [32; 16; 8] + 1)%nat.
Proof.
  apply (depth_follows_hids ToyGAT.toy_wrapper 100 10 [32; 16; 8] [8] [Some "elu"%string]
           (6 # 10) true false); reflexivity.
Defined.

End GATProofs.
